(** * asio::ipv6: addresses and TCP endpoints

    A shallow embedding of [asio/ipv6/address.hpp] and [asio/ipv6/tcp.hpp].
    Objects are modelled as the bytes and integer fields the C++ code keeps
    in them; [memcpy] and [memcmp] are modelled on byte lists; exceptions are
    modelled by a [result] type. *)

From Stdlib Require Import String Ascii.
From Stdlib Require Import Strings.Byte.
From Stdlib Require Import ZArith List Bool Lia.
Import ListNotations.

Local Open Scope Z_scope.

(** ** Bytes *)

(** [unsigned char] is [Byte.byte]; [uchar_val] is its value as an integer. *)
Definition uchar_val (b : byte) : Z := Z.of_N (Byte.to_N b).

(** Conversion of an integer to [unsigned char] (truncation to 8 bits). *)
Definition uchar_of_Z (z : Z) : byte :=
  match Byte.of_N (Z.to_N (z mod 256)) with
  | Some b => b
  | None => x00
  end.

(** [memcpy(dst, src, n)]: the first [n] bytes of [dst] are replaced by the
    first [n] bytes of [src].  The C function is undefined when either array
    has fewer than [n] bytes; every use below copies 16 bytes between
    16-byte arrays. *)
Definition memcpy (dst src : list byte) (n : nat) : list byte :=
  firstn n src ++ skipn n dst.

(** [memcmp(p, q, n)]: the bytes are compared as [unsigned char], and the
    sign of the result is that of the difference of the first pair of bytes
    that differ.  Reading past the end of an array is undefined in C (0
    here). *)
Fixpoint memcmp (p q : list byte) (n : nat) : Z :=
  match n with
  | O => 0
  | S n' =>
      match p, q with
      | a :: p', b :: q' =>
          if Byte.eqb a b then memcmp p' q' n' else uchar_val a - uchar_val b
      | _, _ => 0
      end
  end.

(** ** Errors *)

(** [asio::error], thrown through [boost::throw_exception]; it carries an
    integer code. *)
Record error := mk_error { code : Z }.

Inductive result (A : Type) : Type :=
| Ok (a : A)
| Throw (e : error).
Arguments Ok {A} a.
Arguments Throw {A} e.

(** ** The platform

    What the two headers take from the socket layer ([socket_ops.hpp],
    [socket_types.hpp], [error.hpp]) and from the machine. *)
Class Platform := {
  (** byte [i] of storage that has not been initialised *)
  indeterminate : nat -> byte;
  (** the byte order of the host *)
  little_endian : bool;
  (** the address-family identifier of IPv6 *)
  AF_INET6 : Z;
  (** the state of the platform, which holds its last error *)
  os_state : Type;
  (** [inet_pton af src dest w]: the status, the destination as written and
      the new state *)
  inet_pton : Z -> string -> list byte -> os_state -> Z * list byte * os_state;
  (** [asio::detail::socket_ops::get_error()] *)
  get_error : os_state -> Z;
  (** [asio::error::invalid_argument] *)
  invalid_argument : Z
}.

(** Fresh storage of [n] bytes. *)
Definition fresh `{Platform} (n : nat) : list byte :=
  map indeterminate (seq 0 n).

(** ** The platform's [in6_addr] *)

Record in6_addr := mk_in6_addr { s6_addr : list byte }.

(** Modelled from the spec: the initialiser macros [IN6ADDR_ANY_INIT] and
    [IN6ADDR_LOOPBACK_INIT] of the platform's socket headers are absent; the
    spec gives them as all-zero and as 15 zero bytes followed by 0x01. *)
Definition IN6ADDR_ANY_INIT : in6_addr :=
  {| s6_addr := repeat x00 16 |}.
Definition IN6ADDR_LOOPBACK_INIT : in6_addr :=
  {| s6_addr := repeat x00 15 ++ [x01] |}.

Definition sizeof_in6_addr : nat := 16.

(** The value of a byte string read as one big-endian unsigned number (byte 0
    is the most significant). *)
Fixpoint be_value (l : list byte) : Z :=
  match l with
  | [] => 0
  | b :: l' => uchar_val b * 256 ^ Z.of_nat (length l') + be_value l'
  end.

(** The top [n] bits of a 16-byte (128-bit) string. *)
Definition top_bits (n : Z) (l : list byte) : Z :=
  Z.shiftr (be_value l) (128 - n).

(** Modelled from the spec: the classification macros [IN6_IS_ADDR_*] of the
    platform's socket headers are absent.  The spec gives their meaning (top
    10 bits 1111111010, top 10 bits 1111111011, first 80 bits zero then 16
    one bits, first 96 bits zero and neither :: nor ::1, first byte 0xFF);
    they are written here on the bytes of [s6_addr], as such headers do, and
    return a C [int]. *)
Definition byte_at (a : in6_addr) (i : nat) : Z :=
  uchar_val (nth i (s6_addr a) x00).

Definition IN6_IS_ADDR_LINKLOCAL (a : in6_addr) : Z :=
  if (byte_at a 0 =? 0xfe) && (Z.land (byte_at a 1) 0xc0 =? 0x80)
  then 1 else 0.

Definition IN6_IS_ADDR_SITELOCAL (a : in6_addr) : Z :=
  if (byte_at a 0 =? 0xfe) && (Z.land (byte_at a 1) 0xc0 =? 0xc0)
  then 1 else 0.

Definition all_zero (l : list byte) : bool :=
  forallb (fun b => uchar_val b =? 0) l.

Definition IN6_IS_ADDR_V4MAPPED (a : in6_addr) : Z :=
  if all_zero (firstn 10 (s6_addr a))
     && (byte_at a 10 =? 0xff) && (byte_at a 11 =? 0xff)
  then 1 else 0.

Definition IN6_IS_ADDR_V4COMPAT (a : in6_addr) : Z :=
  if all_zero (firstn 12 (s6_addr a))
     && (1 <? be_value (firstn 4 (skipn 12 (s6_addr a))))
  then 1 else 0.

Definition IN6_IS_ADDR_MULTICAST (a : in6_addr) : Z :=
  if byte_at a 0 =? 0xff then 1 else 0.

(** ** [asio::ipv6::address] *)

Module Address.

(** [boost::array<unsigned char, 16>]. *)
Record bytes_type := mk_bytes { elems : list byte }.

(** The class has one data member, [in6_addr addr_]. *)
Record address := mk_address { addr_ : in6_addr }.

(** Every [in6_addr] and every [bytes_type] holds exactly 16 bytes. *)
Definition wf_in6 (a : in6_addr) : Prop := length (s6_addr a) = 16%nat.
Definition wf_bytes (b : bytes_type) : Prop := length (elems b) = 16%nat.
Definition wf (a : address) : Prop := wf_in6 (addr_ a).

Section Members.
Context `{Platform}.

(** [address()] *)
Definition address_default : address :=
  let tmp_addr := IN6ADDR_ANY_INIT in
  {| addr_ := tmp_addr |}.

(** [address(const bytes_type& bytes)] *)
Definition address_of_bytes (bytes : bytes_type) : address :=
  {| addr_ := {| s6_addr := memcpy (fresh 16) (elems bytes) 16 |} |}.

(** [address(const char* host)]: the member [addr_] is written by
    [inet_pton]; a status [<= 0] throws the platform's error. *)
Definition address_of_cstr (host : string) (w : os_state)
  : result address * os_state :=
  let '(r, dest, w') := inet_pton AF_INET6 host (fresh 16) w in
  if r <=? 0
  then (Throw (mk_error (get_error w')), w')
  else (Ok {| addr_ := {| s6_addr := dest |} |}, w').

(** [std::string::c_str()]: the characters up to the first NUL. *)
Fixpoint c_str (s : string) : string :=
  match s with
  | EmptyString => EmptyString
  | String c s' =>
      if Ascii.eqb c zero then EmptyString else String c (c_str s')
  end.

(** [address(const std::string& host)] *)
Definition address_of_string (host : string) (w : os_state)
  : result address * os_state :=
  let '(r, dest, w') :=
    inet_pton AF_INET6 (c_str host) (fresh 16) w in
  if r <=? 0
  then (Throw (mk_error (get_error w')), w')
  else (Ok {| addr_ := {| s6_addr := dest |} |}, w').

(** [address(const address& other)] and [operator=(const address&)] *)
Definition address_copy (other : address) : address :=
  {| addr_ := addr_ other |}.
Definition assign (this other : address) : address :=
  {| addr_ := addr_ other |}.

(** [operator=(const char* addr)]: the object after the call, and whether
    the call returned or threw. *)
Definition assign_cstr (this : address) (addr : string) (w : os_state)
  : address * result unit * os_state :=
  match address_of_cstr addr w with
  | (Ok tmp, w') => ({| addr_ := addr_ tmp |}, Ok tt, w')
  | (Throw e, w') => (this, Throw e, w')
  end.

(** [operator=(const std::string& addr)] *)
Definition assign_string (this : address) (addr : string) (w : os_state)
  : address * result unit * os_state :=
  match address_of_string addr w with
  | (Ok tmp, w') => ({| addr_ := addr_ tmp |}, Ok tt, w')
  | (Throw e, w') => (this, Throw e, w')
  end.

(** [to_bytes()] *)
Definition to_bytes (a : address) : bytes_type :=
  let bytes := fresh 16 in
  {| elems := memcpy bytes (s6_addr (addr_ a)) 16 |}.

Definition is_link_local (a : address) : bool :=
  negb (IN6_IS_ADDR_LINKLOCAL (addr_ a) =? 0).
Definition is_site_local (a : address) : bool :=
  negb (IN6_IS_ADDR_SITELOCAL (addr_ a) =? 0).
Definition is_ipv4_mapped (a : address) : bool :=
  negb (IN6_IS_ADDR_V4MAPPED (addr_ a) =? 0).
Definition is_ipv4_compatible (a : address) : bool :=
  negb (IN6_IS_ADDR_V4COMPAT (addr_ a) =? 0).
Definition is_multicast (a : address) : bool :=
  negb (IN6_IS_ADDR_MULTICAST (addr_ a) =? 0).

(** [operator==], [operator!=], [operator<] *)
Definition eq (a1 a2 : address) : bool :=
  memcmp (s6_addr (addr_ a1)) (s6_addr (addr_ a2)) sizeof_in6_addr =? 0.
Definition ne (a1 a2 : address) : bool :=
  negb (memcmp (s6_addr (addr_ a1)) (s6_addr (addr_ a2)) sizeof_in6_addr =? 0).
Definition lt (a1 a2 : address) : bool :=
  memcmp (s6_addr (addr_ a1)) (s6_addr (addr_ a2)) sizeof_in6_addr <? 0.

(** [any()] and [loopback()] *)
Definition any : address := address_default.
Definition loopback : address :=
  let tmp := address_default in
  let tmp_addr := IN6ADDR_LOOPBACK_INIT in
  {| addr_ := tmp_addr |}.

End Members.

End Address.

(** ** The platform's [sockaddr_in6] and byte order *)

(** Modelled from the spec: [asio::detail::inet_addr_v6_type] is declared in
    [socket_types.hpp], which is absent.  The spec gives its fields, in this
    order: the address-family tag, the 16-bit port in network byte order, the
    32-bit flow label, the 16-byte address and the 32-bit scope id.  The tag
    takes the two bytes in front of the port. *)
Record inet_addr_v6_type := mk_inet_addr_v6 {
  sin6_family : Z;
  sin6_port : Z;
  sin6_flowinfo : Z;
  sin6_addr : in6_addr;
  sin6_scope_id : Z
}.

Definition sizeof_inet_addr_v6_type : Z := 2 + 2 + 4 + 16 + 4.

(** Assignment to one field of the structure. *)
Definition set_sin6_family (s : inet_addr_v6_type) (v : Z) :=
  mk_inet_addr_v6 v (sin6_port s) (sin6_flowinfo s) (sin6_addr s)
    (sin6_scope_id s).
Definition set_sin6_port (s : inet_addr_v6_type) (v : Z) :=
  mk_inet_addr_v6 (sin6_family s) v (sin6_flowinfo s) (sin6_addr s)
    (sin6_scope_id s).
Definition set_sin6_flowinfo (s : inet_addr_v6_type) (v : Z) :=
  mk_inet_addr_v6 (sin6_family s) (sin6_port s) v (sin6_addr s)
    (sin6_scope_id s).
Definition set_sin6_addr (s : inet_addr_v6_type) (v : in6_addr) :=
  mk_inet_addr_v6 (sin6_family s) (sin6_port s) (sin6_flowinfo s) v
    (sin6_scope_id s).
Definition set_sin6_scope_id (s : inet_addr_v6_type) (v : Z) :=
  mk_inet_addr_v6 (sin6_family s) (sin6_port s) (sin6_flowinfo s)
    (sin6_addr s) v.

Section ByteOrder.
Context `{Platform}.

(** An [n]-byte unsigned integer as it lies in memory, least significant
    byte first, and in the byte order of the host. *)
Definition le_bytes (n : nat) (v : Z) : list byte :=
  map (fun i => uchar_of_Z (Z.shiftr v (8 * Z.of_nat i))) (seq 0 n).
Definition store (n : nat) (v : Z) : list byte :=
  if little_endian then le_bytes n v else rev (le_bytes n v).
Definition load (l : list byte) : Z :=
  if little_endian then be_value (rev l) else be_value l.

(** The two bytes of a 16-bit value exchanged. *)
Definition bswap16 (x : Z) : Z := (x mod 256) * 256 + (x / 256) mod 256.

(** Modelled from the spec: [host_to_network_short] and
    [network_to_host_short] are defined in [socket_ops.hpp], which is absent.
    The spec has the port in host byte order at the interface and in network
    (big-endian) byte order in the structure. *)
Definition host_to_network_short (x : Z) : Z :=
  if little_endian then bswap16 x else x mod 65536.
Definition network_to_host_short (x : Z) : Z :=
  if little_endian then bswap16 x else x mod 65536.

(** A structure that has not been initialised. *)
Definition fresh_inet_addr_v6 : inet_addr_v6_type :=
  let m := fresh 28 in
  {| sin6_family := load (firstn 2 m);
     sin6_port := load (firstn 2 (skipn 2 m));
     sin6_flowinfo := load (firstn 4 (skipn 4 m));
     sin6_addr := {| s6_addr := firstn 16 (skipn 8 m) |};
     sin6_scope_id := load (firstn 4 (skipn 24 m)) |}.

(** The structure as the socket layer reads it: its bytes. *)
Definition packed (s : inet_addr_v6_type) : list byte :=
  store 2 (sin6_family s) ++ store 2 (sin6_port s)
  ++ store 4 (sin6_flowinfo s) ++ s6_addr (sin6_addr s)
  ++ store 4 (sin6_scope_id s).

(** The port field of the packed structure. *)
Definition port_field (view : list byte) : list byte :=
  firstn 2 (skipn 2 view).

End ByteOrder.

(** ** [asio::ipv6::tcp::endpoint] *)

Module Endpoint.

(** The class has one data member, [inet_addr_v6_type addr_]. *)
Record endpoint := mk_endpoint { addr_ : inet_addr_v6_type }.

Definition is_u16 (p : Z) : Prop := 0 <= p < 65536.

(** The address member holds 16 bytes and the port member 16 bits. *)
Definition wf (e : endpoint) : Prop :=
  Address.wf_in6 (sin6_addr (addr_ e)) /\ is_u16 (sin6_port (addr_ e)).

Section Members.
Context `{Platform}.

(** The fields that no operation of the class gives another value: the
    family tag, the flow label and the scope id. *)
Definition fixed_fields (e : endpoint) : Prop :=
  sin6_family (addr_ e) = AF_INET6
  /\ sin6_flowinfo (addr_ e) = 0
  /\ sin6_scope_id (addr_ e) = 0.

(** [endpoint()] *)
Definition endpoint_default : endpoint :=
  let a := fresh_inet_addr_v6 in
  let a := set_sin6_family a AF_INET6 in
  let a := set_sin6_port a 0 in
  let a := set_sin6_flowinfo a 0 in
  let tmp_addr := IN6ADDR_LOOPBACK_INIT in
  let a := set_sin6_addr a tmp_addr in
  let a := set_sin6_scope_id a 0 in
  {| addr_ := a |}.

(** [endpoint(unsigned short port_num)] *)
Definition endpoint_of_port (port_num : Z) : endpoint :=
  let a := fresh_inet_addr_v6 in
  let a := set_sin6_family a AF_INET6 in
  let a := set_sin6_port a (host_to_network_short port_num) in
  let a := set_sin6_flowinfo a 0 in
  let tmp_addr := IN6ADDR_LOOPBACK_INIT in
  let a := set_sin6_addr a tmp_addr in
  let a := set_sin6_scope_id a 0 in
  {| addr_ := a |}.

(** [endpoint(unsigned short port_num, const asio::ipv6::address& addr)] *)
Definition endpoint_of_port_address (port_num : Z) (addr : Address.address)
  : endpoint :=
  let a := fresh_inet_addr_v6 in
  let a := set_sin6_family a AF_INET6 in
  let a := set_sin6_port a (host_to_network_short port_num) in
  let a := set_sin6_flowinfo a 0 in
  let bytes := Address.to_bytes addr in
  let a :=
    set_sin6_addr a
      {| s6_addr := memcpy (s6_addr (sin6_addr a)) (Address.elems bytes) 16 |} in
  let a := set_sin6_scope_id a 0 in
  {| addr_ := a |}.

(** [endpoint(const endpoint& other)] and [operator=(const endpoint&)] *)
Definition endpoint_copy (other : endpoint) : endpoint :=
  {| addr_ := addr_ other |}.
Definition assign (this other : endpoint) : endpoint :=
  {| addr_ := addr_ other |}.

(** [data()]: the structure reinterpreted as the native type. *)
Definition data (e : endpoint) : list byte := packed (addr_ e).

(** [size()] *)
Definition size (e : endpoint) : Z := sizeof_inet_addr_v6_type.

(** [size(size_type size)]: the object after the call, and whether the call
    returned or threw. *)
Definition set_size (e : endpoint) (size : Z) : endpoint * result unit :=
  if negb (size =? sizeof_inet_addr_v6_type)
  then (e, Throw (mk_error invalid_argument))
  else (e, Ok tt).

(** [port()] *)
Definition port (e : endpoint) : Z :=
  network_to_host_short (sin6_port (addr_ e)).

(** [port(unsigned short port_num)] *)
Definition set_port (e : endpoint) (port_num : Z) : endpoint :=
  {| addr_ := set_sin6_port (addr_ e) (host_to_network_short port_num) |}.

(** [address()] *)
Definition address (e : endpoint) : Address.address :=
  let bytes := fresh 16 in
  let bytes := memcpy bytes (s6_addr (sin6_addr (addr_ e))) 16 in
  Address.address_of_bytes (Address.mk_bytes bytes).

(** [address(const asio::ipv6::address& addr)] *)
Definition set_address (e : endpoint) (addr : Address.address) : endpoint :=
  let bytes := Address.to_bytes addr in
  {| addr_ :=
       set_sin6_addr (addr_ e)
         {| s6_addr :=
              memcpy (s6_addr (sin6_addr (addr_ e))) (Address.elems bytes) 16 |}
  |}.

(** [operator==], [operator!=], [operator<] *)
Definition eq (e1 e2 : endpoint) : bool :=
  Address.eq (address e1) (address e2) && (port e1 =? port e2).
Definition ne (e1 e2 : endpoint) : bool :=
  Address.ne (address e1) (address e2) || negb (port e1 =? port e2).
Definition lt (e1 e2 : endpoint) : bool :=
  if Address.lt (address e1) (address e2) then true
  else if Address.ne (address e1) (address e2) then false
  else port e1 <? port e2.

End Members.

End Endpoint.

(** A platform for the examples: a little-endian host whose conversion
    routine knows the texts [::] and [::1] only and reports the code 22 for
    any other text. *)
Definition example_inet_pton (af : Z) (src : string) (dest : list byte)
    (w : Z) : Z * list byte * Z :=
  if String.eqb src "::" then (1, repeat x00 16, w)
  else if String.eqb src "::1" then (1, repeat x00 15 ++ [x01], w)
  else (0, dest, 22).

Definition example_platform : Platform :=
  {| indeterminate := fun i => uchar_of_Z (0xa5 + Z.of_nat i);
     little_endian := true;
     AF_INET6 := 10;
     os_state := Z;
     inet_pton := example_inet_pton;
     get_error := fun w => w;
     invalid_argument := 22 |}.

(** The address 2001:db8::1 and the address fe80::1. *)
Definition addr_2001_db8_1 : Address.address :=
  Address.mk_address (mk_in6_addr
    [x20; x01; x0d; xb8; x00; x00; x00; x00;
     x00; x00; x00; x00; x00; x00; x00; x01]).
Definition addr_fe80_1 : Address.address :=
  Address.mk_address (mk_in6_addr
    [xfe; x80; x00; x00; x00; x00; x00; x00;
     x00; x00; x00; x00; x00; x00; x00; x01]).

(** Unsigned lexicographic order on byte strings: the strings agree up to
    some index [i], where the byte of the first is the smaller. *)
Definition lex_lt (p q : list byte) : Prop :=
  exists i : nat,
    (i < length p)%nat /\ firstn i p = firstn i q
    /\ uchar_val (nth i p x00) < uchar_val (nth i q x00).

(** Exactly one of three tests holds. *)
Definition exactly_one (x y z : bool) : Prop :=
  (x = true /\ y = false /\ z = false)
  \/ (x = false /\ y = true /\ z = false)
  \/ (x = false /\ y = false /\ z = true).

(** ** The text form of an address *)

(** A hexadecimal digit of either case, and a decimal digit. *)
Definition hex_digit (c : ascii) : option Z :=
  let n := Z.of_nat (nat_of_ascii c) in
  if (48 <=? n) && (n <=? 57) then Some (n - 48)
  else if (97 <=? n) && (n <=? 102) then Some (n - 87)
  else if (65 <=? n) && (n <=? 70) then Some (n - 55)
  else None.

Definition dec_digit (c : ascii) : option Z :=
  let n := Z.of_nat (nat_of_ascii c) in
  if (48 <=? n) && (n <=? 57) then Some (n - 48) else None.

(** The number that a string of digits writes in base [base]. *)
Fixpoint digits_value (digit : ascii -> option Z) (base : Z) (s : string)
    (acc : Z) : option Z :=
  match s with
  | EmptyString => Some acc
  | String c s' =>
      match digit c with
      | Some d => digits_value digit base s' (acc * base + d)
      | None => None
      end
  end.

(** The fields of a text between the occurrences of a separator. *)
Fixpoint split_on (sep : ascii) (s : string) : list string :=
  match s with
  | EmptyString => [EmptyString]
  | String c s' =>
      if Ascii.eqb c sep then EmptyString :: split_on sep s'
      else
        match split_on sep s' with
        | f :: fs => String c f :: fs
        | [] => [String c EmptyString]
        end
  end.

(** A colon-hex group: one to four hexadecimal digits, two bytes. *)
Definition hex_group (s : string) : option (list byte) :=
  if (1 <=? String.length s)%nat && (String.length s <=? 4)%nat then
    match digits_value hex_digit 16 s 0 with
    | Some v => Some [uchar_of_Z (v / 256); uchar_of_Z v]
    | None => None
    end
  else None.

(** One part of a dotted IPv4 suffix: decimal digits without a leading
    zero, of value at most 255. *)
Definition dec_octet (s : string) : option byte :=
  match s with
  | EmptyString => None
  | String c s' =>
      if Ascii.eqb c "0" && negb (String.eqb s' "") then None
      else
        match digits_value dec_digit 10 s 0 with
        | Some v => if v <=? 255 then Some (uchar_of_Z v) else None
        | None => None
        end
  end.

(** The dotted IPv4 suffix: four parts, four bytes. *)
Definition dotted_quad (s : string) : option (list byte) :=
  match map dec_octet (split_on "." s) with
  | [Some a; Some b; Some c; Some d] => Some [a; b; c; d]
  | _ => None
  end.

(** Groups separated by single colons; the last field may be a dotted IPv4
    suffix where [v4] allows it. *)
Fixpoint parse_fields (v4 : bool) (fs : list string) : option (list byte) :=
  match fs with
  | [] => Some []
  | f :: fs' =>
      match fs' with
      | [] =>
          match hex_group f with
          | Some b => Some b
          | None => if v4 then dotted_quad f else None
          end
      | _ :: _ =>
          match hex_group f, parse_fields v4 fs' with
          | Some b, Some r => Some (b ++ r)
          | _, _ => None
          end
      end
  end.

Definition parse_groups (v4 : bool) (s : string) : option (list byte) :=
  if String.eqb s "" then Some [] else parse_fields v4 (split_on ":" s).

(** The text before and the text after the first [::]. *)
Fixpoint find_gap (s : string) : option (string * string) :=
  match s with
  | EmptyString => None
  | String c s' =>
      match s' with
      | EmptyString => None
      | String c' s'' =>
          if Ascii.eqb c ":" && Ascii.eqb c' ":" then Some (EmptyString, s'')
          else
            match find_gap s' with
            | Some (l, r) => Some (String c l, r)
            | None => None
            end
      end
  end.

(** Modelled from the spec: the conversion of text to an address is done by
    the platform routine behind [asio::detail::socket_ops::inet_pton]
    ([socket_ops.hpp] is absent).  The spec gives the text form: colon-hex
    groups, an optional [::] that stands for a run of zero groups, and an
    optional dotted IPv4 suffix.  [inet_pton6 s] is the 16 bytes that a
    conforming text [s] writes, and [None] for a text that does not
    conform: without [::] the groups fill the 16 bytes, and with [::] they
    leave at least one zero group. *)
Definition inet_pton6 (s : string) : option (list byte) :=
  match find_gap s with
  | Some (l, r) =>
      match parse_groups false l, parse_groups true r with
      | Some lb, Some rb =>
          if (length lb + length rb <=? 14)%nat
          then Some (lb ++ repeat x00 (16 - length lb - length rb) ++ rb)
          else None
      | _, _ => None
      end
  | None =>
      match parse_groups true s with
      | Some b => if (length b =? 16)%nat then Some b else None
      | None => None
      end
  end.

(** A platform whose conversion routine accepts the conforming texts and no
    other, and reports the code 22 for a text that does not conform. *)
Definition standard_inet_pton (af : Z) (src : string) (dest : list byte)
    (w : Z) : Z * list byte * Z :=
  if af =? 10 then
    match inet_pton6 src with
    | Some b => (1, b, w)
    | None => (0, dest, 22)
    end
  else (-1, dest, 97).

Definition standard_platform : Platform :=
  {| indeterminate := fun i => uchar_of_Z (0x5a + Z.of_nat i);
     little_endian := true;
     AF_INET6 := 10;
     os_state := Z;
     inet_pton := standard_inet_pton;
     get_error := fun w => w;
     invalid_argument := 22 |}.

(** The law of a platform whose conversion routine follows the text form:
    a conforming text gives a positive status and its 16 bytes, any other
    text a status [<= 0]. *)
Definition standard_text `{Platform} : Prop :=
  forall (src : string) (dest : list byte) (w : os_state),
    match inet_pton6 src with
    | Some b =>
        0 < fst (fst (inet_pton AF_INET6 src dest w))
        /\ snd (fst (inet_pton AF_INET6 src dest w)) = b
    | None => fst (fst (inet_pton AF_INET6 src dest w)) <= 0
    end.

(** The text [::1], a NUL character, and the text [junk]: eight characters
    that a [std::string] can hold. *)
Definition text_with_nul : string :=
  String.append "::1" (String zero "junk").

(** The address whose 16 bytes are all 0xFF. *)
Definition addr_all_ones : Address.address :=
  Address.mk_address (mk_in6_addr (repeat xff 16)).

(** The number whose digits, most significant first, are the 16 address
    bytes of an endpoint and then its port in host order. *)
Definition endpoint_key `{Platform} (e : Endpoint.endpoint) : Z :=
  be_value (s6_addr (sin6_addr (Endpoint.addr_ e))) * 65536 + Endpoint.port e.

(** How many of a list of tests hold. *)
Definition how_many (l : list bool) : nat :=
  length (filter (fun b : bool => b) l).

(** * Properties *)

(** ** Bytes, [memcpy] and [memcmp] *)

Lemma uchar_val_range (b : byte) : 0 <= uchar_val b < 256.
Proof.
  unfold uchar_val. pose proof (Byte.to_N_bounded b). lia.
Qed.

Lemma uchar_val_inj (a b : byte) : uchar_val a = uchar_val b -> a = b.
Proof.
  unfold uchar_val. intros E. apply N2Z.inj in E.
  pose proof (Byte.of_to_N a) as Ha. rewrite E, Byte.of_to_N in Ha.
  congruence.
Qed.

Lemma uchar_of_Z_val (z : Z) : uchar_val (uchar_of_Z z) = z mod 256.
Proof.
  unfold uchar_of_Z, uchar_val.
  pose proof (Z.mod_pos_bound z 256 ltac:(lia)) as Hr.
  destruct (Byte.of_N (Z.to_N (z mod 256))) as [b|] eqn:E.
  - apply Byte.to_of_N in E. rewrite E. lia.
  - apply Byte.of_N_None_iff in E. lia.
Qed.

Lemma byte_eqb_eq (a b : byte) : Byte.eqb a b = true <-> a = b.
Proof.
  split; [apply Byte.byte_dec_bl | apply Byte.byte_dec_lb].
Qed.

Lemma fresh_length `{Platform} (n : nat) : length (fresh n) = n.
Proof.
  unfold fresh. now rewrite length_map, length_seq.
Qed.

Lemma memcpy_all (dst src : list byte) (n : nat) :
  length src = n -> length dst = n -> memcpy dst src n = src.
Proof.
  intros Hs Hd. unfold memcpy.
  rewrite firstn_all2, skipn_all2 by lia. apply app_nil_r.
Qed.

Lemma be_value_range (l : list byte) :
  0 <= be_value l < 256 ^ Z.of_nat (length l).
Proof.
  induction l as [|b l IH]; cbn [be_value length].
  - cbn. lia.
  - rewrite Nat2Z.inj_succ, Z.pow_succ_r by lia.
    pose proof (uchar_val_range b). nia.
Qed.

(** [memcmp] on two strings of [n] bytes: its sign decides equality and the
    lexicographic order, which is the order of the big-endian values. *)
Lemma memcmp_spec (n : nat) : forall p q : list byte,
  length p = n -> length q = n ->
  (memcmp p q n = 0 /\ p = q)
  \/ (memcmp p q n < 0 /\ lex_lt p q /\ be_value p < be_value q)
  \/ (0 < memcmp p q n /\ lex_lt q p /\ be_value q < be_value p).
Proof.
  induction n as [|n IH]; intros p q Hp Hq.
  - destruct p, q; try discriminate. left. now split.
  - destruct p as [|a p]; [discriminate|]. destruct q as [|b q]; [discriminate|].
    injection Hp as Hp. injection Hq as Hq. cbn [memcmp].
    destruct (Byte.eqb a b) eqn:E.
    + apply byte_eqb_eq in E. subst b.
      destruct (IH p q Hp Hq) as [[H0 ->]|[(Hlt & (i & Hi & Hpre & Hb) & Hv)
                                         |(Hgt & (i & Hi & Hpre & Hb) & Hv)]].
      * left. now split.
      * right. left. split; [exact Hlt|]. split.
        -- exists (S i). cbn. repeat split; [lia | now f_equal | exact Hb].
        -- cbn [be_value]. rewrite Hp, Hq. lia.
      * right. right. split; [exact Hgt|]. split.
        -- exists (S i). cbn. repeat split; [lia | now f_equal | exact Hb].
        -- cbn [be_value]. rewrite Hp, Hq. lia.
    + assert (Hne : uchar_val a <> uchar_val b).
      { intros Hv. apply uchar_val_inj in Hv. subst b.
        rewrite (proj2 (byte_eqb_eq a a) eq_refl) in E. discriminate. }
      pose proof (be_value_range p) as Rp. pose proof (be_value_range q) as Rq.
      rewrite Hp in Rp. rewrite Hq in Rq.
      assert (0 < 256 ^ Z.of_nat n) by (apply Z.pow_pos_nonneg; lia).
      destruct (Z.lt_ge_cases (uchar_val a) (uchar_val b)) as [Hab|Hab].
      * right. left. split; [lia|]. split.
        -- exists 0%nat. cbn. repeat split; [lia | exact Hab].
        -- cbn [be_value]. rewrite Hp, Hq. nia.
      * right. right. split; [lia|]. split.
        -- exists 0%nat. cbn. repeat split; [lia | lia].
        -- cbn [be_value]. rewrite Hp, Hq. nia.
Qed.

Lemma lex_lt_be_value : forall p q : list byte,
  length p = length q -> lex_lt p q -> be_value p < be_value q.
Proof.
  induction p as [|a p IH]; intros q Hlen (i & Hi & Hpre & Hb).
  - cbn in Hi. lia.
  - destruct q as [|b q]; [discriminate|]. injection Hlen as Hlen.
    cbn [be_value]. rewrite <- Hlen.
    pose proof (be_value_range p) as Rp. pose proof (be_value_range q) as Rq.
    rewrite <- Hlen in Rq.
    destruct i as [|i].
    + cbn in Hb. nia.
    + cbn in Hi, Hpre, Hb. injection Hpre as -> Hpre.
      assert (be_value p < be_value q).
      { apply IH; [exact Hlen|]. exists i. repeat split; [lia|exact Hpre|exact Hb]. }
      lia.
Qed.

Lemma memcmp_eq_iff (n : nat) (p q : list byte) :
  length p = n -> length q = n -> (memcmp p q n = 0 <-> p = q).
Proof.
  intros Hp Hq.
  destruct (memcmp_spec n p q Hp Hq) as [[H0 E]|[(Hlt & _ & Hv)|(Hgt & _ & Hv)]];
    split; intros; subst; try lia; easy.
Qed.

Lemma memcmp_lt_value (n : nat) (p q : list byte) :
  length p = n -> length q = n ->
  (memcmp p q n < 0 <-> be_value p < be_value q).
Proof.
  intros Hp Hq.
  destruct (memcmp_spec n p q Hp Hq) as [[H0 E]|[(Hlt & _ & Hv)|(Hgt & _ & Hv)]];
    split; intros; subst; lia.
Qed.

Lemma memcmp_lt_iff (n : nat) (p q : list byte) :
  length p = n -> length q = n -> (memcmp p q n < 0 <-> lex_lt p q).
Proof.
  intros Hp Hq. split.
  - intros Hlt.
    destruct (memcmp_spec n p q Hp Hq) as [[H0 _]|[(_ & Hl & _)|(Hgt & _)]];
      [lia | exact Hl | lia].
  - intros Hl. apply (memcmp_lt_value n p q Hp Hq).
    apply lex_lt_be_value; [congruence | exact Hl].
Qed.

Lemma be_value_inj (p q : list byte) :
  length p = length q -> be_value p = be_value q -> p = q.
Proof.
  intros Hlen Hv.
  destruct (memcmp_spec (length q) p q Hlen eq_refl)
    as [[_ E]|[(_ & _ & Hlt)|(_ & _ & Hlt)]]; [exact E | lia | lia].
Qed.

(** ** [address]: bytes in, bytes out *)

Section AddressBytes.
Context `{Platform}.

Lemma address_of_bytes_addr (B : Address.bytes_type) :
  Address.wf_bytes B ->
  s6_addr (Address.addr_ (Address.address_of_bytes B)) = Address.elems B.
Proof.
  intros HB. unfold Address.address_of_bytes. cbn [Address.addr_ s6_addr].
  apply memcpy_all; [exact HB | apply fresh_length].
Qed.

Lemma to_bytes_elems (a : Address.address) :
  Address.wf a ->
  Address.elems (Address.to_bytes a) = s6_addr (Address.addr_ a).
Proof.
  intros Ha. unfold Address.to_bytes. cbn [Address.elems].
  apply memcpy_all; [exact Ha | apply fresh_length].
Qed.

(** C1: for every 16-byte array [B], the constructor from bytes returns an
    address (it is a total function, with no error result) that holds
    exactly the bytes of [B] and is a well-formed 16-byte address, and
    [to_bytes] of that address is [B] again. *)
Theorem to_bytes_address_of_bytes (B : Address.bytes_type) :
  Address.wf_bytes B ->
  s6_addr (Address.addr_ (Address.address_of_bytes B)) = Address.elems B
  /\ Address.wf (Address.address_of_bytes B)
  /\ Address.to_bytes (Address.address_of_bytes B) = B.
Proof.
  intros HB. pose proof (address_of_bytes_addr B HB) as E.
  assert (W : Address.wf (Address.address_of_bytes B)).
  { unfold Address.wf, Address.wf_in6. rewrite E. exact HB. }
  repeat split; [exact E | exact W |].
  destruct B as [l]. pose proof (to_bytes_elems _ W) as E'.
  rewrite E in E'. cbn [Address.elems] in E'.
  destruct (Address.to_bytes _) as [l']. cbn in E'. now subst.
Qed.

End AddressBytes.

Lemma to_bytes_address_of_bytes_witness :
  let B := Address.mk_bytes
    [x20; x01; x0d; xb8; x00; x00; x00; x00;
     x00; x00; x00; x00; x00; x00; x00; x01] in
  Address.wf_bytes B
  /\ Address.to_bytes (H := example_platform)
       (Address.address_of_bytes (H := example_platform) B) = B.
Proof.
  split; [reflexivity|].
  apply (@to_bytes_address_of_bytes example_platform). reflexivity.
Defined.

(** ** [address]: comparison *)

(** C2: on 16-byte addresses, [==] holds exactly when all 16 bytes are
    equal, [!=] is its negation, [<] is the unsigned lexicographic order of
    the bytes from byte 0 on, exactly one of [a < b], [b < a], [a == b]
    holds, and [<] is irreflexive and transitive. *)
Theorem address_strict_total_order (a b c : Address.address) :
  Address.wf a -> Address.wf b -> Address.wf c ->
  (Address.eq a b = true <->
     forall i : nat, (i < 16)%nat ->
       nth i (s6_addr (Address.addr_ a)) x00
       = nth i (s6_addr (Address.addr_ b)) x00)
  /\ Address.ne a b = negb (Address.eq a b)
  /\ (Address.lt a b = true <->
        lex_lt (s6_addr (Address.addr_ a)) (s6_addr (Address.addr_ b)))
  /\ exactly_one (Address.lt a b) (Address.lt b a) (Address.eq a b)
  /\ Address.lt a a = false
  /\ (Address.lt a b = true -> Address.lt b c = true -> Address.lt a c = true).
Proof.
  unfold Address.wf, Address.wf_in6, Address.eq, Address.ne, Address.lt,
    sizeof_in6_addr.
  destruct a as [[p]], b as [[q]], c as [[r]]. cbn [Address.addr_ s6_addr].
  intros Hp Hq Hr.
  pose proof (memcmp_spec 16 p q Hp Hq) as Spq.
  pose proof (memcmp_spec 16 q p Hq Hp) as Sqp.
  pose proof (memcmp_spec 16 p p Hp Hp) as Spp.
  pose proof (memcmp_lt_value 16 p q Hp Hq) as Vpq.
  pose proof (memcmp_lt_value 16 q r Hq Hr) as Vqr.
  pose proof (memcmp_lt_value 16 p r Hp Hr) as Vpr.
  split; [|split; [reflexivity|split; [|split; [|split]]]].
  - rewrite Z.eqb_eq, (memcmp_eq_iff 16 p q Hp Hq). split.
    + now intros ->.
    + intros E. apply (nth_ext p q x00 x00); [congruence|].
      intros i Hi. apply E. lia.
  - rewrite Z.ltb_lt. apply (memcmp_lt_iff 16 p q Hp Hq).
  - unfold exactly_one. rewrite !Z.ltb_lt, !Z.ltb_ge, !Z.eqb_eq, !Z.eqb_neq.
    destruct Spq as [[E0 E]|[(Hlt & _ & Hv)|(Hgt & _ & Hv)]].
    + subst q. right. right. lia.
    + left.
      destruct Sqp as [[E0 E]|[(Hlt' & _ & Hv')|(Hgt' & _ & Hv')]];
        subst; lia.
    + right. left.
      destruct Sqp as [[E0 E]|[(Hlt' & _ & Hv')|(Hgt' & _ & Hv')]];
        subst; lia.
  - apply Z.ltb_ge.
    destruct Spp as [[E0 _]|[(_ & _ & Hv)|(_ & _ & Hv)]]; lia.
  - rewrite !Z.ltb_lt. lia.
Qed.

Lemma address_strict_total_order_witness :
  Address.wf Address.any /\ Address.wf Address.loopback
  /\ Address.wf addr_2001_db8_1
  /\ exactly_one (Address.lt Address.any Address.loopback)
       (Address.lt Address.loopback Address.any)
       (Address.eq Address.any Address.loopback)
  /\ Address.lt Address.any addr_2001_db8_1 = true.
Proof.
  pose proof (address_strict_total_order Address.any Address.loopback
                addr_2001_db8_1 eq_refl eq_refl eq_refl)
    as (_ & _ & _ & X & _ & T).
  split; [reflexivity|]. split; [reflexivity|]. split; [reflexivity|].
  split; [exact X | apply T; reflexivity].
Defined.

(** ** [address]: classification *)

Lemma be_value_app (p q : list byte) :
  be_value (p ++ q) = be_value p * 256 ^ Z.of_nat (length q) + be_value q.
Proof.
  induction p as [|a p IH]; cbn [be_value app]; [lia|].
  rewrite IH, length_app, Nat2Z.inj_add, Z.pow_add_r by lia. ring.
Qed.

Lemma all_zero_be_value (l : list byte) :
  all_zero l = true <-> be_value l = 0.
Proof.
  unfold all_zero. induction l as [|b l IH]; cbn [forallb be_value].
  - easy.
  - pose proof (uchar_val_range b). pose proof (be_value_range l).
    assert (0 < 256 ^ Z.of_nat (length l)) by (apply Z.pow_pos_nonneg; lia).
    rewrite andb_true_iff, Z.eqb_eq, IH. split.
    + intros [-> ->]. lia.
    + intros E. split; nia.
Qed.

(** The top [8 * k] bits of a 16-byte string are its first [k] bytes. *)
Lemma top_bits_bytes (k : nat) (l : list byte) :
  length l = 16%nat -> (k <= 16)%nat ->
  top_bits (8 * Z.of_nat k) l = be_value (firstn k l).
Proof.
  intros Hl Hk. unfold top_bits.
  rewrite <- (firstn_skipn k l) at 1. rewrite be_value_app, length_skipn, Hl.
  pose proof (be_value_range (skipn k l)) as R.
  rewrite length_skipn, Hl in R.
  replace (256 ^ Z.of_nat (16 - k)) with (2 ^ (128 - 8 * Z.of_nat k)) in *.
  2:{ change 256 with (2 ^ 8). rewrite <- Z.pow_mul_r by lia. f_equal. lia. }
  rewrite Z.shiftr_div_pow2 by lia.
  rewrite Z.div_add_l by (apply Z.pow_nonzero; lia).
  rewrite Z.div_small by lia. lia.
Qed.

(** Fewer top bits are the top bits of more top bits. *)
Lemma top_bits_shiftr (n m : Z) (l : list byte) :
  0 <= n <= m -> m <= 128 ->
  top_bits n l = Z.shiftr (top_bits m l) (m - n).
Proof.
  intros Hn Hm. unfold top_bits. rewrite Z.shiftr_shiftr by lia.
  f_equal. lia.
Qed.

Lemma land_c0 (b : byte) :
  Z.land (uchar_val b) 0xc0 = 64 * (uchar_val b / 64).
Proof.
  destruct b; reflexivity.
Qed.

Lemma firstn_2_cons (l : list byte) :
  (2 <= length l)%nat -> firstn 2 l = [nth 0 l x00; nth 1 l x00].
Proof.
  destruct l as [|a [|b l]]; cbn; intros; try lia. reflexivity.
Qed.

(** The top 10 bits, from the first two bytes. *)
Lemma top_bits_10 (l : list byte) :
  length l = 16%nat ->
  top_bits 10 l
  = (uchar_val (nth 0 l x00) * 256 + uchar_val (nth 1 l x00)) / 64.
Proof.
  intros Hl. rewrite (top_bits_shiftr 10 16) by lia.
  change 16 with (8 * Z.of_nat 2).
  rewrite top_bits_bytes by lia. rewrite firstn_2_cons by lia.
  cbn [be_value length]. rewrite Z.shiftr_div_pow2 by lia.
  change (2 ^ (8 * Z.of_nat 2 - 10)) with 64.
  change (256 ^ Z.of_nat 1) with 256. change (256 ^ Z.of_nat 0) with 1.
  f_equal. lia.
Qed.

Lemma int_test (c : bool) : negb ((if c then 1 else 0) =? 0) = c.
Proof.
  now destruct c.
Qed.

(** A list of 16 bytes, byte by byte. *)
Ltac sixteen_bytes l Hl :=
  do 16 (destruct l as [|? l]; [discriminate Hl|]);
  destruct l; [clear Hl | discriminate Hl].

Lemma is_link_local_iff (a : Address.address) :
  Address.wf a ->
  (Address.is_link_local a = true
   <-> top_bits 10 (s6_addr (Address.addr_ a)) = 0x3fa).
Proof.
  destruct a as [[l]]. unfold Address.wf, Address.wf_in6.
  cbn [Address.addr_ s6_addr]. intros Hl.
  unfold Address.is_link_local, IN6_IS_ADDR_LINKLOCAL, byte_at.
  cbn [Address.addr_ s6_addr]. rewrite int_test, top_bits_10, land_c0 by exact Hl.
  pose proof (uchar_val_range (nth 0 l x00)).
  pose proof (uchar_val_range (nth 1 l x00)).
  rewrite andb_true_iff, !Z.eqb_eq. Z.div_mod_to_equations. lia.
Qed.

Lemma is_site_local_iff (a : Address.address) :
  Address.wf a ->
  (Address.is_site_local a = true
   <-> top_bits 10 (s6_addr (Address.addr_ a)) = 0x3fb).
Proof.
  destruct a as [[l]]. unfold Address.wf, Address.wf_in6.
  cbn [Address.addr_ s6_addr]. intros Hl.
  unfold Address.is_site_local, IN6_IS_ADDR_SITELOCAL, byte_at.
  cbn [Address.addr_ s6_addr]. rewrite int_test, top_bits_10, land_c0 by exact Hl.
  pose proof (uchar_val_range (nth 0 l x00)).
  pose proof (uchar_val_range (nth 1 l x00)).
  rewrite andb_true_iff, !Z.eqb_eq. Z.div_mod_to_equations. lia.
Qed.

Lemma is_ipv4_mapped_iff (a : Address.address) :
  Address.wf a ->
  (Address.is_ipv4_mapped a = true
   <-> top_bits 80 (s6_addr (Address.addr_ a)) = 0
       /\ Z.land (top_bits 96 (s6_addr (Address.addr_ a))) 0xffff = 0xffff).
Proof.
  destruct a as [[l]]. unfold Address.wf, Address.wf_in6.
  cbn [Address.addr_ s6_addr]. intros Hl.
  unfold Address.is_ipv4_mapped, IN6_IS_ADDR_V4MAPPED, byte_at.
  cbn [Address.addr_ s6_addr]. rewrite int_test.
  change 80 with (8 * Z.of_nat 10). change 96 with (8 * Z.of_nat 12).
  rewrite !top_bits_bytes by lia.
  change 0xffff with (Z.ones 16). rewrite Z.land_ones by lia.
  rewrite !andb_true_iff, all_zero_be_value, !Z.eqb_eq.
  sixteen_bytes l Hl. cbn [firstn nth be_value length].
  repeat match goal with |- context [uchar_val ?b] =>
    let R := fresh "R" in
    pose proof (uchar_val_range b) as R; generalize dependent (uchar_val b)
  end.
  intros. cbn.
  split; intros HH.
  - destruct HH as [[E E0] E1]. subst. split; [exact E|].
    repeat match goal with R : 0 <= ?v < 256 |- _ =>
      is_var v; assert (v = 0) by lia; subst v
    end.
    reflexivity.
  - destruct HH as [E M].
    repeat match goal with R : 0 <= ?v < 256 |- _ =>
      is_var v; assert (v = 0) by lia; subst v
    end.
    Z.div_mod_to_equations. lia.
Qed.

Lemma be_value_any : be_value (s6_addr IN6ADDR_ANY_INIT) = 0.
Proof.
  reflexivity.
Qed.

Lemma be_value_loopback : be_value (s6_addr IN6ADDR_LOOPBACK_INIT) = 1.
Proof.
  reflexivity.
Qed.

Lemma is_ipv4_compatible_iff (a : Address.address) :
  Address.wf a ->
  (Address.is_ipv4_compatible a = true
   <-> top_bits 96 (s6_addr (Address.addr_ a)) = 0
       /\ a <> Address.any /\ a <> Address.loopback).
Proof.
  destruct a as [[l]]. unfold Address.wf, Address.wf_in6.
  cbn [Address.addr_ s6_addr]. intros Hl.
  unfold Address.is_ipv4_compatible, IN6_IS_ADDR_V4COMPAT.
  cbn [Address.addr_ s6_addr]. rewrite int_test.
  change 96 with (8 * Z.of_nat 12). rewrite top_bits_bytes by lia.
  rewrite (firstn_all2 (n := 4)) by (rewrite length_skipn; lia).
  rewrite andb_true_iff, all_zero_be_value, Z.ltb_lt.
  pose proof (be_value_app (firstn 12 l) (skipn 12 l)) as E.
  rewrite firstn_skipn, length_skipn, Hl in E.
  change (256 ^ Z.of_nat (16 - 12)) with 4294967296 in E.
  pose proof (be_value_range (skipn 12 l)) as R.
  assert (Hany : {| Address.addr_ := {| s6_addr := l |} |} = Address.any
                 <-> be_value l = 0).
  { split; [intros [= ->]; reflexivity|].
    intros E0. rewrite <- be_value_any in E0.
    apply be_value_inj in E0; [now subst | now rewrite Hl]. }
  assert (Hlb : {| Address.addr_ := {| s6_addr := l |} |} = Address.loopback
                <-> be_value l = 1).
  { split; [intros [= ->]; reflexivity|].
    intros E1. rewrite <- be_value_loopback in E1.
    apply be_value_inj in E1; [now subst | now rewrite Hl]. }
  rewrite Hany, Hlb. lia.
Qed.

Lemma is_multicast_iff (a : Address.address) :
  Address.is_multicast a = true
  <-> nth 0 (s6_addr (Address.addr_ a)) x00 = xff.
Proof.
  unfold Address.is_multicast, IN6_IS_ADDR_MULTICAST, byte_at.
  rewrite int_test, Z.eqb_eq. split.
  - intros E. apply uchar_val_inj. exact E.
  - now intros ->.
Qed.

(** C3: each classification predicate is a function of the 16 bytes of the
    address alone, and holds exactly for its pattern: [is_link_local] when
    the top 10 bits are 1111111010 (0x3fa), [is_site_local] when they are
    1111111011 (0x3fb), [is_ipv4_mapped] when the first 80 bits are zero and
    the next 16 bits are all one, [is_ipv4_compatible] when the first 96 bits
    are zero and the address is neither the all-zero address nor the
    loopback address, [is_multicast] when the first byte is 0xFF. *)
Theorem classification_patterns (a : Address.address) :
  Address.wf a ->
  let l := s6_addr (Address.addr_ a) in
  (Address.is_link_local a = true <-> top_bits 10 l = 0x3fa)
  /\ (Address.is_site_local a = true <-> top_bits 10 l = 0x3fb)
  /\ (Address.is_ipv4_mapped a = true
      <-> top_bits 80 l = 0 /\ Z.land (top_bits 96 l) 0xffff = 0xffff)
  /\ (Address.is_ipv4_compatible a = true
      <-> top_bits 96 l = 0 /\ a <> Address.any /\ a <> Address.loopback)
  /\ (Address.is_multicast a = true <-> nth 0 l x00 = xff).
Proof.
  intros Ha l. subst l.
  split; [apply is_link_local_iff, Ha|].
  split; [apply is_site_local_iff, Ha|].
  split; [apply is_ipv4_mapped_iff, Ha|].
  split; [apply is_ipv4_compatible_iff, Ha|].
  apply is_multicast_iff.
Qed.

Lemma classification_patterns_witness :
  Address.wf addr_fe80_1
  /\ (Address.is_link_local addr_fe80_1 = true
      <-> top_bits 10 (s6_addr (Address.addr_ addr_fe80_1)) = 0x3fa).
Proof.
  split; [reflexivity|].
  exact (proj1 (classification_patterns addr_fe80_1 eq_refl)).
Defined.

(** ** Byte order *)

Section ByteOrderFacts.
Context `{Platform}.

Lemma bswap16_range (x : Z) : 0 <= bswap16 x < 65536.
Proof.
  unfold bswap16. Z.div_mod_to_equations. lia.
Qed.

Lemma bswap16_involutive (x : Z) :
  0 <= x < 65536 -> bswap16 (bswap16 x) = x.
Proof.
  unfold bswap16. intros Hx. Z.div_mod_to_equations. lia.
Qed.

Lemma host_to_network_short_range (x : Z) :
  0 <= host_to_network_short x < 65536.
Proof.
  unfold host_to_network_short. destruct little_endian.
  - apply bswap16_range.
  - apply Z.mod_pos_bound. lia.
Qed.

Lemma network_to_host_to_network (x : Z) :
  0 <= x < 65536 ->
  network_to_host_short (host_to_network_short x) = x.
Proof.
  intros Hx. unfold network_to_host_short, host_to_network_short.
  destruct little_endian.
  - now apply bswap16_involutive.
  - rewrite Z.mod_mod by lia. apply Z.mod_small. exact Hx.
Qed.

Lemma network_to_host_short_inj (x y : Z) :
  0 <= x < 65536 -> 0 <= y < 65536 ->
  network_to_host_short x = network_to_host_short y -> x = y.
Proof.
  unfold network_to_host_short. destruct little_endian; intros Hx Hy E.
  - rewrite <- (bswap16_involutive x Hx), <- (bswap16_involutive y Hy).
    now rewrite E.
  - rewrite !Z.mod_small in E by lia. exact E.
Qed.

Lemma uchar_of_Z_mod (x y : Z) :
  x mod 256 = y mod 256 -> uchar_of_Z x = uchar_of_Z y.
Proof.
  unfold uchar_of_Z. now intros ->.
Qed.

(** A 16-bit value in network byte order lies in memory with its high byte
    first, whatever the byte order of the host. *)
Lemma store_host_to_network_short (p : Z) :
  0 <= p < 65536 ->
  store 2 (host_to_network_short p) = [uchar_of_Z (p / 256); uchar_of_Z p].
Proof.
  intros Hp. unfold store, host_to_network_short, le_bytes.
  destruct little_endian; cbn [map seq rev app];
    rewrite !Z.shiftr_div_pow2 by lia;
    change (2 ^ (8 * Z.of_nat 0)) with 1; change (2 ^ (8 * Z.of_nat 1)) with 256;
    f_equal; [| f_equal | | f_equal]; apply uchar_of_Z_mod; unfold bswap16;
    Z.div_mod_to_equations; lia.
Qed.

Lemma store_length (n : nat) (v : Z) : length (store n v) = n.
Proof.
  unfold store, le_bytes.
  destruct little_endian; rewrite ?length_rev, length_map, length_seq;
    reflexivity.
Qed.

End ByteOrderFacts.

(** ** [endpoint]: construction and access *)

Section EndpointAccess.
Context `{Platform}.

(** [address()] returns the 16 bytes of the address member. *)
Lemma endpoint_address (e : Endpoint.endpoint) :
  Address.wf_in6 (sin6_addr (Endpoint.addr_ e)) ->
  Endpoint.address e = Address.mk_address (sin6_addr (Endpoint.addr_ e)).
Proof.
  intros He. unfold Endpoint.address, Address.address_of_bytes.
  cbn [Address.elems].
  rewrite (memcpy_all (fresh 16) (s6_addr _)) by (exact He || apply fresh_length).
  rewrite memcpy_all by (exact He || apply fresh_length).
  now destruct (sin6_addr (Endpoint.addr_ e)).
Qed.

Lemma endpoint_address_wf (e : Endpoint.endpoint) :
  Address.wf_in6 (sin6_addr (Endpoint.addr_ e)) ->
  Address.wf (Endpoint.address e).
Proof.
  intros He. rewrite endpoint_address by exact He. exact He.
Qed.

(** C4: the default constructor gives the loopback address and port 0, and
    the constructor from a 16-bit port [p] gives the loopback address and
    port [p]. *)
Theorem endpoint_default_and_port_only :
  Endpoint.address Endpoint.endpoint_default = Address.loopback
  /\ Endpoint.port Endpoint.endpoint_default = 0
  /\ forall p : Z, Endpoint.is_u16 p ->
       Endpoint.address (Endpoint.endpoint_of_port p) = Address.loopback
       /\ Endpoint.port (Endpoint.endpoint_of_port p) = p.
Proof.
  split; [|split].
  - now rewrite endpoint_address.
  - unfold Endpoint.port, Endpoint.endpoint_default. cbn [Endpoint.addr_
      set_sin6_scope_id set_sin6_addr set_sin6_flowinfo set_sin6_port sin6_port].
    unfold network_to_host_short. now destruct little_endian.
  - intros p Hp. split.
    + now rewrite endpoint_address.
    + apply network_to_host_to_network. exact Hp.
Qed.

(** C5: an endpoint constructed from a 16-bit port [p] and an address [a]
    has [address() == a] and [port() == p], and the port field of its packed
    structure holds the high byte of [p] and then its low byte. *)
Theorem endpoint_of_port_address_access (p : Z) (a : Address.address) :
  Endpoint.is_u16 p -> Address.wf a ->
  Endpoint.address (Endpoint.endpoint_of_port_address p a) = a
  /\ Address.eq (Endpoint.address (Endpoint.endpoint_of_port_address p a)) a
     = true
  /\ Endpoint.port (Endpoint.endpoint_of_port_address p a) = p
  /\ port_field (Endpoint.data (Endpoint.endpoint_of_port_address p a))
     = [uchar_of_Z (p / 256); uchar_of_Z p].
Proof.
  intros Hp Ha.
  assert (E : sin6_addr (Endpoint.addr_ (Endpoint.endpoint_of_port_address p a))
              = Address.addr_ a).
  { unfold Endpoint.endpoint_of_port_address.
    cbn [Endpoint.addr_ set_sin6_scope_id set_sin6_addr sin6_addr].
    rewrite to_bytes_elems by exact Ha.
    rewrite memcpy_all; [now destruct (Address.addr_ a) | exact Ha | reflexivity]. }
  assert (Ea : Endpoint.address (Endpoint.endpoint_of_port_address p a) = a).
  { rewrite endpoint_address; rewrite E; [now destruct a | exact Ha]. }
  split; [exact Ea|]. split; [|split].
  - rewrite Ea. unfold Address.eq. apply Z.eqb_eq.
    now apply memcmp_eq_iff.
  - apply network_to_host_to_network. exact Hp.
  - unfold Endpoint.data, packed, port_field.
    rewrite skipn_app, (skipn_all2 (n := 2)) by (rewrite store_length; lia).
    rewrite store_length. cbn [app Nat.sub skipn].
    rewrite firstn_app, store_length, firstn_all2 by (rewrite store_length; lia).
    cbn [Nat.sub firstn]. rewrite app_nil_r.
    apply store_host_to_network_short. exact Hp.
Qed.

End EndpointAccess.

Lemma endpoint_default_and_port_only_witness :
  Endpoint.is_u16 8080
  /\ Endpoint.port (H := example_platform)
       (Endpoint.endpoint_of_port (H := example_platform) 8080) = 8080.
Proof.
  split; [unfold Endpoint.is_u16; lia|].
  apply (proj2 (proj2 (@endpoint_default_and_port_only example_platform))).
  unfold Endpoint.is_u16. lia.
Defined.

Lemma endpoint_of_port_address_access_witness :
  Endpoint.is_u16 8080 /\ Address.wf addr_2001_db8_1
  /\ Endpoint.port (H := example_platform)
       (Endpoint.endpoint_of_port_address (H := example_platform)
          8080 addr_2001_db8_1) = 8080
  /\ port_field (Endpoint.data (H := example_platform)
       (Endpoint.endpoint_of_port_address (H := example_platform)
          8080 addr_2001_db8_1)) = [x1f; x90].
Proof.
  assert (Hp : Endpoint.is_u16 8080) by (unfold Endpoint.is_u16; lia).
  split; [exact Hp|]. split; [reflexivity|].
  pose proof (@endpoint_of_port_address_access example_platform 8080
                addr_2001_db8_1 Hp eq_refl) as (_ & _ & P & D).
  split; [exact P | exact D].
Defined.

(** ** [endpoint]: comparison *)

Section EndpointOrder.
Context `{Platform}.

Lemma address_eq_iff (a b : Address.address) :
  Address.wf a -> Address.wf b -> (Address.eq a b = true <-> a = b).
Proof.
  destruct a as [[p]], b as [[q]]. unfold Address.wf, Address.wf_in6, Address.eq.
  cbn [Address.addr_ s6_addr]. intros Hp Hq.
  rewrite Z.eqb_eq, (memcmp_eq_iff _ p q Hp Hq). split; congruence.
Qed.

Lemma endpoint_port_range (e : Endpoint.endpoint) :
  0 <= Endpoint.port e < 65536.
Proof.
  unfold Endpoint.port, network_to_host_short. destruct little_endian.
  - apply bswap16_range.
  - apply Z.mod_pos_bound. lia.
Qed.

(** C6: two endpoints are [==] exactly when their addresses are equal and
    their ports are equal, whatever their flow label and scope id and
    whichever constructor made them; [!=] is the negation of [==]; and
    [e1 < e2] exactly when the address of [e1] is below that of [e2], or the
    addresses are equal and the port of [e1] is below that of [e2]. *)
Theorem endpoint_comparison (e1 e2 : Endpoint.endpoint) :
  Endpoint.wf e1 -> Endpoint.wf e2 ->
  (Endpoint.eq e1 e2 = true
   <-> Endpoint.address e1 = Endpoint.address e2
       /\ Endpoint.port e1 = Endpoint.port e2)
  /\ (forall flow scope : Z,
        Endpoint.eq
          (Endpoint.mk_endpoint
             (set_sin6_scope_id
                (set_sin6_flowinfo (Endpoint.addr_ e1) flow) scope))
          e2
        = Endpoint.eq e1 e2)
  /\ (forall p : Z, Endpoint.is_u16 p ->
        Endpoint.eq (Endpoint.endpoint_of_port p)
          (Endpoint.endpoint_of_port_address p Address.loopback) = true
        /\ Endpoint.eq (Endpoint.set_port Endpoint.endpoint_default p)
             (Endpoint.endpoint_of_port p) = true)
  /\ Endpoint.ne e1 e2 = negb (Endpoint.eq e1 e2)
  /\ (Endpoint.lt e1 e2 = true
      <-> Address.lt (Endpoint.address e1) (Endpoint.address e2) = true
          \/ (Endpoint.address e1 = Endpoint.address e2
              /\ Endpoint.port e1 < Endpoint.port e2)).
Proof.
  intros [W1 _] [W2 _].
  pose proof (endpoint_address_wf e1 W1) as A1.
  pose proof (endpoint_address_wf e2 W2) as A2.
  pose proof (address_eq_iff _ _ A1 A2) as Eq.
  split; [|split; [|split; [|split]]].
  - unfold Endpoint.eq. rewrite andb_true_iff, Z.eqb_eq, Eq. reflexivity.
  - reflexivity.
  - intros p Hp. split.
    + unfold Endpoint.eq. rewrite andb_true_iff, Z.eqb_eq. split.
      * now rewrite !endpoint_address.
      * reflexivity.
    + unfold Endpoint.eq. rewrite andb_true_iff, Z.eqb_eq. split.
      * now rewrite !endpoint_address.
      * reflexivity.
  - unfold Endpoint.ne, Endpoint.eq, Address.ne, Address.eq.
    now rewrite negb_andb.
  - unfold Endpoint.lt.
    change (Address.ne (Endpoint.address e1) (Endpoint.address e2))
      with (negb (Address.eq (Endpoint.address e1) (Endpoint.address e2))).
    clear Eq.
    destruct (Address.lt (Endpoint.address e1) (Endpoint.address e2)) eqn:L.
    + split; [now left | reflexivity].
    + destruct (Address.eq (Endpoint.address e1) (Endpoint.address e2)) eqn:E;
        cbn [negb].
      * apply (address_eq_iff _ _ A1 A2) in E. rewrite Z.ltb_lt. split.
        -- intros P. right. now split.
        -- intros [D | [_ P]]; [discriminate | exact P].
      * split; [discriminate|].
        intros [D | [E' _]]; [discriminate|].
        apply (address_eq_iff _ _ A1 A2) in E'. congruence.
Qed.

End EndpointOrder.

Lemma endpoint_comparison_witness :
  let e1 := Endpoint.endpoint_of_port (H := example_platform) 80 in
  let e2 := Endpoint.endpoint_of_port_address (H := example_platform)
              8080 addr_2001_db8_1 in
  Endpoint.wf e1 /\ Endpoint.wf e2
  /\ Endpoint.ne (H := example_platform) e1 e2
     = negb (Endpoint.eq (H := example_platform) e1 e2)
  /\ Endpoint.lt (H := example_platform) e1 e2 = true.
Proof.
  intros e1 e2.
  assert (W1 : Endpoint.wf e1).
  { split; [reflexivity | unfold Endpoint.is_u16; cbn; lia]. }
  assert (W2 : Endpoint.wf e2).
  { split; [reflexivity | unfold Endpoint.is_u16; cbn; lia]. }
  split; [exact W1|]. split; [exact W2|].
  pose proof (@endpoint_comparison example_platform e1 e2 W1 W2)
    as (_ & _ & _ & N & L).
  split; [exact N|]. apply L. left. reflexivity.
Defined.

(** ** [endpoint]: the size of the native structure *)

Section EndpointSize.
Context `{Platform}.

Lemma set_size_unchanged (e : Endpoint.endpoint) (s : Z) :
  fst (Endpoint.set_size e s) = e.
Proof.
  unfold Endpoint.set_size. now destruct (negb _).
Qed.

(** C8: [size(s)] returns without error exactly when [s] is the constant
    that [size()] returns and throws [invalid_argument] for every other
    value, and in both cases the endpoint is as it was. *)
Theorem set_size_accepts_native_size_only (e : Endpoint.endpoint) (s : Z) :
  fst (Endpoint.set_size e s) = e
  /\ (snd (Endpoint.set_size e s) = Ok tt <-> s = Endpoint.size e)
  /\ (snd (Endpoint.set_size e s) = Throw (mk_error invalid_argument)
      <-> s <> Endpoint.size e)
  /\ (forall e' : Endpoint.endpoint, Endpoint.size e' = Endpoint.size e).
Proof.
  unfold Endpoint.set_size, Endpoint.size.
  destruct (Z.eqb_spec s sizeof_inet_addr_v6_type) as [E|E]; cbn [negb fst snd].
  - repeat split; try easy.
  - repeat split; try easy.
Qed.

Lemma packed_length (s : inet_addr_v6_type) :
  Address.wf_in6 (sin6_addr s) ->
  Z.of_nat (length (packed s)) = sizeof_inet_addr_v6_type.
Proof.
  unfold Address.wf_in6, packed. intros Hs.
  rewrite !length_app, !store_length, Hs. reflexivity.
Qed.

(** C9: every constructor leaves the family tag at [AF_INET6] and the flow
    label and the scope id at 0; the copy operations and the three mutating
    operations keep these fields as they were; and the size of the
    structure is one constant, the number of bytes of every packed
    structure. *)
Theorem fixed_fields_invariant :
  Endpoint.fixed_fields Endpoint.endpoint_default
  /\ (forall p : Z, Endpoint.fixed_fields (Endpoint.endpoint_of_port p))
  /\ (forall (p : Z) (a : Address.address),
        Endpoint.fixed_fields (Endpoint.endpoint_of_port_address p a))
  /\ (forall e : Endpoint.endpoint, Endpoint.fixed_fields e ->
        Endpoint.fixed_fields (Endpoint.endpoint_copy e)
        /\ (forall this, Endpoint.fixed_fields (Endpoint.assign this e))
        /\ (forall a, Endpoint.fixed_fields (Endpoint.set_address e a))
        /\ (forall p, Endpoint.fixed_fields (Endpoint.set_port e p))
        /\ (forall s, Endpoint.fixed_fields (fst (Endpoint.set_size e s))))
  /\ (forall e : Endpoint.endpoint,
        Endpoint.size e = sizeof_inet_addr_v6_type
        /\ (Endpoint.wf e ->
            Z.of_nat (length (Endpoint.data e)) = Endpoint.size e)).
Proof.
  split; [|split; [|split; [|split]]].
  - now repeat split.
  - intros p. now repeat split.
  - intros p a. now repeat split.
  - intros e (F & L & S). unfold Endpoint.fixed_fields.
    split; [|split; [|split; [|split]]]; intros;
      rewrite ?set_size_unchanged; cbn;
      now repeat split.
  - intros e. split; [reflexivity|]. intros [W _].
    apply packed_length. exact W.
Qed.

(** C10: [port(p)] changes the port field only, so that [address()] and
    every other field are as before; [address(a)] changes the address field
    only, so that [port()] and every other field are as before. *)
Theorem setters_frame (e : Endpoint.endpoint) (p : Z) (a : Address.address) :
  (Endpoint.address (Endpoint.set_port e p) = Endpoint.address e
   /\ sin6_addr (Endpoint.addr_ (Endpoint.set_port e p))
      = sin6_addr (Endpoint.addr_ e)
   /\ sin6_family (Endpoint.addr_ (Endpoint.set_port e p))
      = sin6_family (Endpoint.addr_ e)
   /\ sin6_flowinfo (Endpoint.addr_ (Endpoint.set_port e p))
      = sin6_flowinfo (Endpoint.addr_ e)
   /\ sin6_scope_id (Endpoint.addr_ (Endpoint.set_port e p))
      = sin6_scope_id (Endpoint.addr_ e))
  /\ (Endpoint.port (Endpoint.set_address e a) = Endpoint.port e
      /\ sin6_port (Endpoint.addr_ (Endpoint.set_address e a))
         = sin6_port (Endpoint.addr_ e)
      /\ sin6_family (Endpoint.addr_ (Endpoint.set_address e a))
         = sin6_family (Endpoint.addr_ e)
      /\ sin6_flowinfo (Endpoint.addr_ (Endpoint.set_address e a))
         = sin6_flowinfo (Endpoint.addr_ e)
      /\ sin6_scope_id (Endpoint.addr_ (Endpoint.set_address e a))
         = sin6_scope_id (Endpoint.addr_ e)).
Proof.
  split; repeat split.
Qed.

End EndpointSize.

Lemma fixed_fields_invariant_witness :
  let e := Endpoint.endpoint_of_port_address (H := example_platform)
             8080 addr_2001_db8_1 in
  Endpoint.fixed_fields (H := example_platform) e
  /\ Endpoint.wf e
  /\ Endpoint.fixed_fields (H := example_platform)
       (Endpoint.set_port (H := example_platform) e 443)
  /\ Z.of_nat (length (Endpoint.data (H := example_platform) e)) = 28.
Proof.
  intros e.
  pose proof (@fixed_fields_invariant example_platform)
    as (_ & _ & C & M & S).
  assert (W : Endpoint.wf e).
  { split; [reflexivity | unfold Endpoint.is_u16; cbn; lia]. }
  split; [apply C|]. split; [exact W|]. split.
  - apply (M e (C 8080 addr_2001_db8_1)).
  - apply (proj2 (S e) W).
Defined.

(** ** [address]: text that is not an address *)

Lemma inet_pton6_length (s : string) (b : list byte) :
  inet_pton6 s = Some b -> length b = 16%nat.
Proof.
  unfold inet_pton6. destruct (find_gap s) as [[l r]|].
  - destruct (parse_groups false l) as [lb|]; [|discriminate].
    destruct (parse_groups true r) as [rb|]; [|discriminate].
    destruct (Nat.leb_spec (length lb + length rb) 14); [|discriminate].
    remember (16 - length lb - length rb)%nat as k eqn:Hk.
    intros [= <-]. rewrite !length_app, repeat_length. lia.
  - destruct (parse_groups true s) as [b'|]; [|discriminate].
    destruct (Nat.eqb_spec (length b') 16); [|discriminate].
    now intros [= <-].
Qed.

Lemma standard_platform_law : @standard_text standard_platform.
Proof.
  intros src dest w.
  change (@inet_pton standard_platform (@AF_INET6 standard_platform) src dest w)
    with (standard_inet_pton 10 src dest w).
  unfold standard_inet_pton. change (10 =? 10) with true. cbv iota.
  destruct (inet_pton6 src); cbn [fst snd]; [split; [lia | reflexivity] | lia].
Qed.

Section AddressText.
Context `{Platform}.

(** What the four members do when the conversion routine reports a status
    [<= 0]. *)
Lemma rejected_status_throws
    (host : string) (this : Address.address) (w : os_state) :
  fst (fst (inet_pton AF_INET6 (Address.c_str host) (fresh 16) w)) <= 0 ->
  let w' := snd (inet_pton AF_INET6 (Address.c_str host) (fresh 16) w) in
  let e := mk_error (get_error w') in
  Address.address_of_cstr (Address.c_str host) w = (Throw e, w')
  /\ Address.address_of_string host w = (Throw e, w')
  /\ Address.assign_cstr this (Address.c_str host) w = (this, Throw e, w')
  /\ Address.assign_string this host w = (this, Throw e, w').
Proof.
  intros Hr w' e. subst w' e.
  unfold Address.assign_cstr, Address.assign_string, Address.address_of_cstr,
    Address.address_of_string.
  destruct (inet_pton AF_INET6 (Address.c_str host) (fresh 16) w)
    as [[r dest] w1].
  cbn [fst snd] in *. apply Z.leb_le in Hr. rewrite Hr. now repeat split.
Qed.

(** C7, as amended: on a platform whose conversion routine follows the text
    form, for every text whose characters up to the first NUL do not conform
    to the IPv6 text form, both constructors from text throw the error that
    carries the platform's error code and produce no address, and both
    assignments from text throw the same error and leave the assigned
    address as it was. *)
Theorem nonconforming_text_rejected
    (host : string) (this : Address.address) (w : os_state) :
  standard_text ->
  inet_pton6 (Address.c_str host) = None ->
  let w' := snd (inet_pton AF_INET6 (Address.c_str host) (fresh 16) w) in
  let e := mk_error (get_error w') in
  Address.address_of_cstr (Address.c_str host) w = (Throw e, w')
  /\ Address.address_of_string host w = (Throw e, w')
  /\ Address.assign_cstr this (Address.c_str host) w = (this, Throw e, w')
  /\ Address.assign_string this host w = (this, Throw e, w').
Proof.
  intros Law Hn. apply rejected_status_throws.
  specialize (Law (Address.c_str host) (fresh 16) w).
  rewrite Hn in Law. exact Law.
Qed.

End AddressText.

Lemma nonconforming_text_rejected_witness :
  @standard_text standard_platform
  /\ inet_pton6 (Address.c_str "not-an-address") = None
  /\ Address.address_of_string (H := standard_platform) "not-an-address" 0
     = (Throw (mk_error 22), 22)
  /\ Address.assign_string (H := standard_platform) Address.loopback
       "not-an-address" 0
     = (Address.loopback, Throw (mk_error 22), 22).
Proof.
  split; [exact standard_platform_law|]. split; [reflexivity|].
  pose proof (@nonconforming_text_rejected standard_platform "not-an-address"
                Address.loopback 0 standard_platform_law eq_refl)
    as (_ & S & _ & A).
  split; [exact S | exact A].
Defined.

(** Not every text that does not conform is rejected: the eight characters
    [::1], NUL, [junk] do not conform, and yet the constructor from a
    [std::string] returns the loopback address for them and the assignment
    replaces the assigned address. *)
Lemma nul_text_counterexample :
  inet_pton6 text_with_nul = None
  /\ Address.address_of_string (H := standard_platform) text_with_nul 0
     = (Ok Address.loopback, 0)
  /\ Address.assign_string (H := standard_platform) addr_fe80_1
       text_with_nul 0
     = (Address.loopback, Ok tt, 0)
  /\ ~ (forall (host : string) (w : Z),
          inet_pton6 host = None ->
          exists (e : error) (w' : Z),
            Address.address_of_string (H := standard_platform) host w
            = (Throw e, w')).
Proof.
  split; [reflexivity|]. split; [reflexivity|]. split; [reflexivity|].
  intros C. destruct (C text_with_nul 0 eq_refl) as (e & w' & E).
  discriminate E.
Qed.

(** ** The definitions on concrete addresses and endpoints *)

Example multicast_ff02_1 :
  Address.is_multicast
    (Address.mk_address (mk_in6_addr
       [xff; x02; x00; x00; x00; x00; x00; x00;
        x00; x00; x00; x00; x00; x00; x00; x01])) = true.
Proof. reflexivity. Qed.

Example link_local_fe80_1 :
  Address.is_link_local addr_fe80_1 = true
  /\ Address.is_site_local addr_fe80_1 = false.
Proof. split; reflexivity. Qed.

Example ipv4_mapped_192_0_2_1 :
  let a := Address.mk_address (mk_in6_addr
       [x00; x00; x00; x00; x00; x00; x00; x00;
        x00; x00; xff; xff; xc0; x00; x02; x01]) in
  Address.is_ipv4_mapped a = true /\ Address.is_ipv4_compatible a = false.
Proof. split; reflexivity. Qed.

Example ipv4_compatible_small :
  Address.is_ipv4_compatible Address.any = false
  /\ Address.is_ipv4_compatible Address.loopback = false
  /\ Address.is_ipv4_compatible
       (Address.mk_address (mk_in6_addr (repeat x00 15 ++ [x02]))) = true.
Proof. repeat split; reflexivity. Qed.

Example any_below_loopback :
  Address.lt Address.any Address.loopback = true
  /\ Address.lt Address.loopback Address.any = false
  /\ Address.lt addr_2001_db8_1 addr_fe80_1 = true.
Proof. repeat split; reflexivity. Qed.

Example text_loopback_accepted :
  Address.address_of_string (H := example_platform) "::1" 0
  = (Ok Address.loopback, 0).
Proof. reflexivity. Qed.

Example set_size_28_and_16 :
  snd (Endpoint.set_size (H := example_platform)
         (Endpoint.endpoint_default (H := example_platform)) 28) = Ok tt
  /\ snd (Endpoint.set_size (H := example_platform)
            (Endpoint.endpoint_default (H := example_platform)) 16)
     = Throw (mk_error 22).
Proof. split; reflexivity. Qed.

Example packed_port_8080 :
  Endpoint.data (H := example_platform)
    (Endpoint.endpoint_of_port_address (H := example_platform)
       8080 addr_2001_db8_1)
  = [x0a; x00; x1f; x90; x00; x00; x00; x00;
     x20; x01; x0d; xb8; x00; x00; x00; x00;
     x00; x00; x00; x00; x00; x00; x00; x01;
     x00; x00; x00; x00].
Proof. reflexivity. Qed.

(** * Further properties of the two classes *)

(** ** [address]: the order as numbers, and its ends *)

(** X1: on 16-byte addresses, [a < b] holds exactly when the 128-bit
    big-endian number of [a] is below that of [b], and [a == b] exactly when
    the two numbers are equal; the number lies in [0, 2^128). *)
Theorem address_order_numeric (a b : Address.address) :
  Address.wf a -> Address.wf b ->
  (Address.lt a b = true
   <-> be_value (s6_addr (Address.addr_ a)) < be_value (s6_addr (Address.addr_ b)))
  /\ (Address.eq a b = true
      <-> be_value (s6_addr (Address.addr_ a))
          = be_value (s6_addr (Address.addr_ b)))
  /\ 0 <= be_value (s6_addr (Address.addr_ a)) < 2 ^ 128.
Proof.
  destruct a as [[p]], b as [[q]]. unfold Address.wf, Address.wf_in6,
    Address.lt, Address.eq, sizeof_in6_addr.
  cbn [Address.addr_ s6_addr]. intros Hp Hq.
  split; [|split].
  - rewrite Z.ltb_lt. apply (memcmp_lt_value 16 p q Hp Hq).
  - rewrite Z.eqb_eq, (memcmp_eq_iff 16 p q Hp Hq). split.
    + now intros ->.
    + apply be_value_inj. congruence.
  - pose proof (be_value_range p) as R. rewrite Hp in R. exact R.
Qed.

Lemma address_order_numeric_witness :
  Address.wf addr_2001_db8_1 /\ Address.wf addr_fe80_1
  /\ be_value (s6_addr (Address.addr_ addr_2001_db8_1))
     < be_value (s6_addr (Address.addr_ addr_fe80_1)).
Proof.
  split; [reflexivity|]. split; [reflexivity|].
  apply (proj1 (address_order_numeric addr_2001_db8_1 addr_fe80_1
                  eq_refl eq_refl)).
  reflexivity.
Defined.

(** X2: [any()] is the least address and the all-0xFF address the
    greatest: no 16-byte address is below [any()] or above the all-0xFF
    address, and every other address is above [any()] and below the
    all-0xFF address. *)
Theorem address_order_ends (a : Address.address) :
  Address.wf a ->
  Address.lt a Address.any = false
  /\ Address.lt addr_all_ones a = false
  /\ (Address.lt Address.any a = true <-> a <> Address.any)
  /\ (Address.lt a addr_all_ones = true <-> a <> addr_all_ones).
Proof.
  destruct a as [[p]]. unfold Address.wf, Address.wf_in6, Address.lt,
    sizeof_in6_addr.
  cbn [Address.addr_ s6_addr Address.any Address.address_default addr_all_ones
       IN6ADDR_ANY_INIT].
  intros Hp.
  pose proof (be_value_range p) as R. rewrite Hp in R.
  pose proof (memcmp_lt_value 16 p (repeat x00 16) Hp eq_refl) as L0.
  pose proof (memcmp_lt_value 16 (repeat x00 16) p eq_refl Hp) as G0.
  pose proof (memcmp_lt_value 16 p (repeat xff 16) Hp eq_refl) as L1.
  pose proof (memcmp_lt_value 16 (repeat xff 16) p eq_refl Hp) as G1.
  assert (V0 : be_value (repeat x00 16) = 0) by reflexivity.
  assert (V1 : be_value (repeat xff 16) = 2 ^ 128 - 1) by reflexivity.
  rewrite V0 in *. rewrite V1 in *.
  split; [apply Z.ltb_ge; lia|]. split; [apply Z.ltb_ge; lia|].
  rewrite !Z.ltb_lt, G0, L1. split.
  - split.
    + intros Hv [= ->]. vm_compute in Hv. discriminate.
    + intros Hne. assert (be_value p <> 0); [|lia].
      intros E. apply Hne. rewrite <- V0 in E.
      apply be_value_inj in E; [now subst | now rewrite Hp].
  - split.
    + intros Hv [= ->]. vm_compute in Hv. discriminate.
    + intros Hne. assert (be_value p <> 2 ^ 128 - 1); [|lia].
      intros E. apply Hne. rewrite <- V1 in E.
      apply be_value_inj in E; [now subst | now rewrite Hp].
Qed.

Lemma address_order_ends_witness :
  Address.wf Address.loopback
  /\ Address.lt Address.loopback Address.any = false
  /\ Address.lt Address.any Address.loopback = true.
Proof.
  split; [reflexivity|].
  pose proof (address_order_ends Address.loopback eq_refl) as (A & _ & B & _).
  split; [exact A|]. apply B. discriminate.
Defined.

(** ** [address]: bytes out, bytes in *)

Section AddressBytesBack.
Context `{Platform}.

(** X3: for 16-byte addresses, [to_bytes] gives a 16-byte array from which
    the constructor from bytes rebuilds the address, and two addresses are
    [==] exactly when their [to_bytes] arrays are equal. *)
Theorem address_of_bytes_to_bytes (a b : Address.address) :
  Address.wf a -> Address.wf b ->
  Address.wf_bytes (Address.to_bytes a)
  /\ Address.address_of_bytes (Address.to_bytes a) = a
  /\ (Address.eq a b = true <-> Address.to_bytes a = Address.to_bytes b).
Proof.
  intros Ha Hb.
  pose proof (to_bytes_elems a Ha) as Ea. pose proof (to_bytes_elems b Hb) as Eb.
  assert (Wa : Address.wf_bytes (Address.to_bytes a)).
  { unfold Address.wf_bytes. rewrite Ea. exact Ha. }
  split; [exact Wa|]. split.
  - pose proof (address_of_bytes_addr _ Wa) as E. rewrite Ea in E.
    destruct (Address.address_of_bytes _) as [[l]], a as [[p]].
    cbn in E. now subst.
  - destruct a as [[p]], b as [[q]].
    unfold Address.eq, sizeof_in6_addr. cbn [Address.addr_ s6_addr] in *.
    rewrite Z.eqb_eq, (memcmp_eq_iff 16 p q Ha Hb). split.
    + now intros ->.
    + intros E. rewrite <- Ea, <- Eb. now rewrite E.
Qed.

End AddressBytesBack.

Lemma address_of_bytes_to_bytes_witness :
  Address.wf addr_fe80_1
  /\ Address.address_of_bytes (H := example_platform)
       (Address.to_bytes (H := example_platform) addr_fe80_1) = addr_fe80_1.
Proof.
  split; [reflexivity|].
  apply (@address_of_bytes_to_bytes example_platform addr_fe80_1 addr_fe80_1
           eq_refl eq_refl).
Defined.

(** ** [address]: the classes do not overlap *)

Lemma top_bits_8 (l : list byte) :
  length l = 16%nat -> top_bits 8 l = uchar_val (nth 0 l x00).
Proof.
  intros Hl. change 8 with (8 * Z.of_nat 1). rewrite top_bits_bytes by lia.
  destruct l as [|b l]; [discriminate|]. cbn [firstn nth be_value length].
  change (256 ^ Z.of_nat 0) with 1. lia.
Qed.

Lemma is_multicast_top_bits (a : Address.address) :
  Address.wf a ->
  (Address.is_multicast a = true
   <-> top_bits 8 (s6_addr (Address.addr_ a)) = 0xff).
Proof.
  intros Ha. rewrite is_multicast_iff, top_bits_8 by exact Ha. split.
  - now intros ->.
  - intros E. apply uchar_val_inj. exact E.
Qed.

(** X4: no 16-byte address is in two of the five classes: at most one of
    [is_link_local], [is_site_local], [is_ipv4_mapped], [is_ipv4_compatible]
    and [is_multicast] holds of it. *)
Theorem classification_exclusive (a : Address.address) :
  Address.wf a ->
  (how_many [Address.is_link_local a; Address.is_site_local a;
             Address.is_ipv4_mapped a; Address.is_ipv4_compatible a;
             Address.is_multicast a] <= 1)%nat.
Proof.
  intros Ha.
  pose proof (is_link_local_iff a Ha) as LL.
  pose proof (is_site_local_iff a Ha) as SL.
  pose proof (is_ipv4_mapped_iff a Ha) as MP.
  pose proof (is_ipv4_compatible_iff a Ha) as CP.
  pose proof (is_multicast_top_bits a Ha) as MC.
  change 0xffff with (Z.ones 16) in MP. rewrite Z.land_ones in MP by lia.
  pose proof (top_bits_shiftr 8 10 (s6_addr (Address.addr_ a))
                ltac:(lia) ltac:(lia)) as T10.
  pose proof (top_bits_shiftr 8 96 (s6_addr (Address.addr_ a))
                ltac:(lia) ltac:(lia)) as T96.
  pose proof (top_bits_shiftr 80 96 (s6_addr (Address.addr_ a))
                ltac:(lia) ltac:(lia)) as T80.
  rewrite Z.shiftr_div_pow2 in T10, T96, T80 by lia.
  change (2 ^ (10 - 8)) with 4 in T10.
  change (2 ^ (96 - 8)) with 309485009821345068724781056 in T96.
  change (2 ^ (96 - 80)) with 65536 in T80.
  change (2 ^ 16) with 65536 in MP. change (Z.ones 16) with 65535 in MP.
  generalize dependent (top_bits 8 (s6_addr (Address.addr_ a))).
  generalize dependent (top_bits 10 (s6_addr (Address.addr_ a))).
  generalize dependent (top_bits 80 (s6_addr (Address.addr_ a))).
  generalize dependent (top_bits 96 (s6_addr (Address.addr_ a))).
  intros t96 CP t80 MP E80 t10 LL SL t8 MC E10 E96.
  destruct (Address.is_link_local a), (Address.is_site_local a),
    (Address.is_ipv4_mapped a), (Address.is_ipv4_compatible a),
    (Address.is_multicast a);
    cbn [how_many filter length]; try lia; exfalso;
    repeat match goal with
           | X : true = true <-> _ |- _ =>
               apply proj1 in X; specialize (X eq_refl)
           | X : false = true <-> _ |- _ => clear X
           end;
    repeat match goal with X : _ /\ _ |- _ => destruct X end;
    Z.div_mod_to_equations; lia.
Qed.

Lemma classification_exclusive_witness :
  Address.wf addr_fe80_1
  /\ (how_many [Address.is_link_local addr_fe80_1;
                Address.is_site_local addr_fe80_1;
                Address.is_ipv4_mapped addr_fe80_1;
                Address.is_ipv4_compatible addr_fe80_1;
                Address.is_multicast addr_fe80_1] <= 1)%nat.
Proof.
  split; [reflexivity|]. apply (classification_exclusive addr_fe80_1 eq_refl).
Defined.

(** ** [address]: text that is an address, and text with a NUL *)

Section AddressTextAccepted.
Context `{Platform}.

Lemma c_str_app_nul (s t : string) :
  Address.c_str (s ++ String zero t) = Address.c_str s.
Proof.
  induction s as [|c s IH]; cbn [String.append Address.c_str].
  - reflexivity.
  - destruct (Ascii.eqb c zero); [reflexivity | now rewrite IH].
Qed.

Lemma c_str_idempotent (s : string) :
  Address.c_str (Address.c_str s) = Address.c_str s.
Proof.
  induction s as [|c s IH]; cbn [Address.c_str]; [reflexivity|].
  destruct (Ascii.eqb c zero) eqn:E; cbn [Address.c_str]; [reflexivity|].
  now rewrite E, IH.
Qed.

(** X5: the constructor and the assignment from a [std::string] read the
    text up to its first NUL character only: whatever follows a NUL changes
    neither the result nor the state of the platform, and both do what the
    [const char*] versions do on the characters before the first NUL. *)
Theorem string_text_stops_at_nul
    (s t : string) (this : Address.address) (w : os_state) :
  Address.address_of_string (s ++ String zero t) w
  = Address.address_of_string s w
  /\ Address.assign_string this (s ++ String zero t) w
     = Address.assign_string this s w
  /\ Address.address_of_string s w
     = Address.address_of_cstr (Address.c_str s) w
  /\ Address.assign_string this s w
     = Address.assign_cstr this (Address.c_str s) w.
Proof.
  unfold Address.assign_string, Address.assign_cstr,
    Address.address_of_string, Address.address_of_cstr.
  rewrite c_str_app_nul. now repeat split.
Qed.

(** X6: on a platform whose conversion routine follows the text form, for
    every text whose characters up to the first NUL conform, both
    constructors from text return the address that holds the 16 bytes the
    text writes, a well-formed address whose [to_bytes] are those bytes,
    and both assignments from text return normally and make the assigned
    address that address, whatever it was before. *)
Theorem text_accepted
    (host : string) (this : Address.address) (w : os_state) (b : list byte) :
  standard_text ->
  inet_pton6 (Address.c_str host) = Some b ->
  let w' := snd (inet_pton AF_INET6 (Address.c_str host) (fresh 16) w) in
  let a := Address.mk_address (mk_in6_addr b) in
  Address.wf a
  /\ Address.to_bytes a = Address.mk_bytes b
  /\ Address.address_of_cstr (Address.c_str host) w = (Ok a, w')
  /\ Address.address_of_string host w = (Ok a, w')
  /\ Address.assign_cstr this (Address.c_str host) w = (a, Ok tt, w')
  /\ Address.assign_string this host w = (a, Ok tt, w').
Proof.
  intros Law Hb w' a. subst w' a.
  pose proof (inet_pton6_length _ _ Hb) as Hl.
  assert (W : Address.wf (Address.mk_address (mk_in6_addr b))) by exact Hl.
  split; [exact W|]. split.
  { pose proof (to_bytes_elems _ W) as E.
    destruct (Address.to_bytes _) as [l]. cbn in E. now subst. }
  specialize (Law (Address.c_str host) (fresh 16) w). rewrite Hb in Law.
  destruct Law as [Hr Hd].
  unfold Address.assign_cstr, Address.assign_string, Address.address_of_cstr,
    Address.address_of_string.
  destruct (inet_pton AF_INET6 (Address.c_str host) (fresh 16) w)
    as [[r dest] w1].
  cbn [fst snd] in *. subst dest.
  assert (E : (r <=? 0) = false) by (apply Z.leb_gt; exact Hr).
  rewrite E. now repeat split.
Qed.

End AddressTextAccepted.

Lemma text_accepted_witness :
  @standard_text standard_platform
  /\ inet_pton6 (Address.c_str "2001:db8::1")
     = Some (s6_addr (Address.addr_ addr_2001_db8_1))
  /\ Address.assign_string (H := standard_platform) addr_fe80_1
       "2001:db8::1" 0
     = (addr_2001_db8_1, Ok tt, 0).
Proof.
  split; [exact standard_platform_law|]. split; [reflexivity|].
  pose proof (@text_accepted standard_platform "2001:db8::1" addr_fe80_1 0
                _ standard_platform_law eq_refl) as (_ & _ & _ & _ & _ & A).
  exact A.
Defined.

(** ** [endpoint]: well-formed structures *)

Section EndpointLaws.
Context `{Platform}.

Lemma set_address_addr (e : Endpoint.endpoint) (a : Address.address) :
  Address.wf_in6 (sin6_addr (Endpoint.addr_ e)) -> Address.wf a ->
  sin6_addr (Endpoint.addr_ (Endpoint.set_address e a)) = Address.addr_ a.
Proof.
  intros He Ha. unfold Endpoint.set_address.
  cbn [Endpoint.addr_ set_sin6_addr sin6_addr].
  rewrite to_bytes_elems by exact Ha.
  rewrite memcpy_all; [now destruct (Address.addr_ a) | exact Ha | exact He].
Qed.

Lemma endpoint_of_port_address_addr (p : Z) (a : Address.address) :
  Address.wf a ->
  sin6_addr (Endpoint.addr_ (Endpoint.endpoint_of_port_address p a))
  = Address.addr_ a.
Proof.
  intros Ha. unfold Endpoint.endpoint_of_port_address.
  cbn [Endpoint.addr_ set_sin6_scope_id set_sin6_addr sin6_addr].
  rewrite to_bytes_elems by exact Ha.
  rewrite memcpy_all; [now destruct (Address.addr_ a) | exact Ha | reflexivity].
Qed.

(** X7: every endpoint that the constructors build has a 16-byte address
    member and a 16-bit port member, and copying, assigning and the three
    mutating operations keep it so; [address()] of such an endpoint is a
    16-byte address. *)
Theorem endpoint_wf_invariant :
  Endpoint.wf Endpoint.endpoint_default
  /\ (forall p : Z, Endpoint.wf (Endpoint.endpoint_of_port p))
  /\ (forall (p : Z) (a : Address.address), Address.wf a ->
        Endpoint.wf (Endpoint.endpoint_of_port_address p a))
  /\ (forall e : Endpoint.endpoint, Endpoint.wf e ->
        Endpoint.wf (Endpoint.endpoint_copy e)
        /\ (forall this, Endpoint.wf (Endpoint.assign this e))
        /\ (forall p, Endpoint.wf (Endpoint.set_port e p))
        /\ (forall a, Address.wf a -> Endpoint.wf (Endpoint.set_address e a))
        /\ (forall s, Endpoint.wf (fst (Endpoint.set_size e s)))
        /\ Address.wf (Endpoint.address e)).
Proof.
  split; [|split; [|split]].
  - split; [reflexivity | unfold Endpoint.is_u16; cbn; lia].
  - intros p. split; [reflexivity | apply host_to_network_short_range].
  - intros p a Ha. split.
    + rewrite endpoint_of_port_address_addr by exact Ha. exact Ha.
    + apply host_to_network_short_range.
  - intros e [Wa Wp]. split; [|split; [|split; [|split; [|split]]]].
    + now split.
    + intros this. now split.
    + intros p. split; [exact Wa | apply host_to_network_short_range].
    + intros a Ha. split; [|exact Wp].
      rewrite set_address_addr by assumption. exact Ha.
    + intros s. rewrite set_size_unchanged. now split.
    + apply endpoint_address_wf. exact Wa.
Qed.

(** ** [endpoint]: what is set is what is read *)

(** X8: on an endpoint with a 16-byte address member, [port()] after
    [port(p)] is [p] for a 16-bit [p], and [address()] after [address(a)] is
    [a] for a 16-byte [a]; of two calls of the same setter the later one
    decides; and the two setters can be called in either order. *)
Theorem setters_compose
    (e : Endpoint.endpoint) (p q : Z) (a b : Address.address) :
  Address.wf_in6 (sin6_addr (Endpoint.addr_ e)) ->
  Endpoint.is_u16 p -> Address.wf a -> Address.wf b ->
  Endpoint.port (Endpoint.set_port e p) = p
  /\ Endpoint.address (Endpoint.set_address e a) = a
  /\ Endpoint.set_port (Endpoint.set_port e q) p = Endpoint.set_port e p
  /\ Endpoint.set_address (Endpoint.set_address e b) a
     = Endpoint.set_address e a
  /\ Endpoint.set_port (Endpoint.set_address e a) p
     = Endpoint.set_address (Endpoint.set_port e p) a.
Proof.
  intros He Hp Ha Hb.
  pose proof (set_address_addr e a He Ha) as Ea.
  pose proof (set_address_addr e b He Hb) as Eb.
  split; [|split; [|split; [|split]]].
  - apply network_to_host_to_network. exact Hp.
  - rewrite endpoint_address; rewrite Ea; [now destruct a | exact Ha].
  - reflexivity.
  - assert (Wb : Address.wf_in6
                   (sin6_addr (Endpoint.addr_ (Endpoint.set_address e b)))).
    { rewrite Eb. exact Hb. }
    pose proof (set_address_addr _ a Wb Ha) as Eab.
    destruct (Endpoint.set_address (Endpoint.set_address e b) a) as [[f1 p1 l1 a1 s1]] eqn:E1.
    destruct (Endpoint.set_address e a) as [[f2 p2 l2 a2 s2]] eqn:E2.
    cbn [Endpoint.addr_ sin6_addr] in Eab, Ea. subst a1 a2.
    apply (f_equal (fun x => (sin6_family (Endpoint.addr_ x),
                              sin6_port (Endpoint.addr_ x),
                              sin6_flowinfo (Endpoint.addr_ x),
                              sin6_scope_id (Endpoint.addr_ x)))) in E1, E2.
    cbn in E1, E2. congruence.
  - reflexivity.
Qed.

(** X9: the constructor from a port and a 16-byte address builds the
    structure with family [AF_INET6], the port in network order, flow label
    0, the bytes of the address and scope id 0, so that nothing of the
    uninitialised storage is left in it; it builds what [port(p)] and then
    [address(a)] make of the default endpoint; the constructor from a port
    builds what [port(p)] makes of the default endpoint; and the default
    endpoint is the one constructed from port 0. *)
Theorem constructors_by_setters (p : Z) (a : Address.address) :
  Address.wf a ->
  Endpoint.endpoint_of_port_address p a
  = Endpoint.mk_endpoint
      (mk_inet_addr_v6 AF_INET6 (host_to_network_short p) 0
         (Address.addr_ a) 0)
  /\ Endpoint.endpoint_of_port_address p a
     = Endpoint.set_address (Endpoint.set_port Endpoint.endpoint_default p) a
  /\ Endpoint.endpoint_of_port p
     = Endpoint.set_port Endpoint.endpoint_default p
  /\ Endpoint.endpoint_of_port p
     = Endpoint.endpoint_of_port_address p Address.loopback
  /\ Endpoint.endpoint_default = Endpoint.endpoint_of_port 0.
Proof.
  intros Ha.
  pose proof (endpoint_of_port_address_addr p a Ha) as E.
  assert (C : Endpoint.endpoint_of_port_address p a
              = Endpoint.mk_endpoint
                  (mk_inet_addr_v6 AF_INET6 (host_to_network_short p) 0
                     (Address.addr_ a) 0)).
  { unfold Endpoint.endpoint_of_port_address in *.
    cbn [Endpoint.addr_ set_sin6_scope_id set_sin6_addr set_sin6_flowinfo
         set_sin6_port set_sin6_family sin6_addr sin6_family sin6_port
         sin6_flowinfo sin6_scope_id] in *.
    now rewrite E. }
  split; [exact C|]. split; [|split; [|split]].
  - rewrite C.
    pose proof (set_address_addr
                  (Endpoint.set_port Endpoint.endpoint_default p) a
                  eq_refl Ha) as Es.
    unfold Endpoint.set_address in *.
    cbn [Endpoint.addr_ set_sin6_addr sin6_addr] in Es. now rewrite Es.
  - reflexivity.
  - reflexivity.
  - unfold Endpoint.endpoint_default, Endpoint.endpoint_of_port.
    do 2 f_equal. unfold set_sin6_port. f_equal.
    unfold host_to_network_short. now destruct little_endian.
Qed.

End EndpointLaws.

Lemma endpoint_wf_invariant_witness :
  Address.wf addr_fe80_1
  /\ Endpoint.wf
       (Endpoint.set_address (H := example_platform)
          (Endpoint.endpoint_of_port (H := example_platform) 80) addr_fe80_1).
Proof.
  split; [reflexivity|].
  pose proof (@endpoint_wf_invariant example_platform) as (_ & P & _ & M).
  apply (M _ (P 80)). reflexivity.
Defined.

Lemma setters_compose_witness :
  Endpoint.is_u16 443 /\ Address.wf addr_fe80_1 /\ Address.wf addr_2001_db8_1
  /\ Endpoint.port (H := example_platform)
       (Endpoint.set_port (H := example_platform)
          (Endpoint.endpoint_default (H := example_platform)) 443) = 443
  /\ Endpoint.address (H := example_platform)
       (Endpoint.set_address (H := example_platform)
          (Endpoint.endpoint_default (H := example_platform)) addr_fe80_1)
     = addr_fe80_1.
Proof.
  assert (Hp : Endpoint.is_u16 443) by (unfold Endpoint.is_u16; lia).
  split; [exact Hp|]. split; [reflexivity|]. split; [reflexivity|].
  pose proof (@setters_compose example_platform
                (Endpoint.endpoint_default (H := example_platform))
                443 80 addr_fe80_1 addr_2001_db8_1 eq_refl Hp eq_refl eq_refl)
    as (P & A & _).
  split; [exact P | exact A].
Defined.

Lemma constructors_by_setters_witness :
  Address.wf addr_2001_db8_1
  /\ Endpoint.endpoint_of_port_address (H := example_platform)
       8080 addr_2001_db8_1
     = Endpoint.set_address (H := example_platform)
         (Endpoint.set_port (H := example_platform)
            (Endpoint.endpoint_default (H := example_platform)) 8080)
         addr_2001_db8_1.
Proof.
  split; [reflexivity|].
  apply (@constructors_by_setters example_platform 8080 addr_2001_db8_1
           eq_refl).
Defined.

(** ** [endpoint]: the bytes that the socket layer reads *)

Section EndpointBytes.
Context `{Platform}.

Lemma port_field_packed (s : inet_addr_v6_type) :
  port_field (packed s) = store 2 (sin6_port s).
Proof.
  unfold packed, port_field.
  rewrite skipn_app, (skipn_all2 (n := 2)) by (rewrite store_length; lia).
  rewrite store_length. cbn [app Nat.sub skipn].
  rewrite firstn_app, store_length, firstn_all2 by (rewrite store_length; lia).
  cbn [Nat.sub firstn]. apply app_nil_r.
Qed.

Lemma store_4_zero : store 4 0 = repeat x00 4.
Proof.
  unfold store. now destruct little_endian.
Qed.

Lemma be_value_store_2 (v : Z) :
  be_value (store 2 v) = network_to_host_short v.
Proof.
  unfold store, network_to_host_short, le_bytes, bswap16.
  destruct little_endian; cbn [map seq rev app be_value length];
    rewrite !uchar_of_Z_val, !Z.shiftr_div_pow2 by lia;
    change (2 ^ (8 * Z.of_nat 0)) with 1; change (2 ^ (8 * Z.of_nat 1)) with 256;
    change (256 ^ Z.of_nat 1) with 256; change (256 ^ Z.of_nat 0) with 1;
    Z.div_mod_to_equations; lia.
Qed.

(** X10: the packed structure of an endpoint constructed from a 16-bit port
    [p] and a 16-byte address [a] is the family tag, the high and the low
    byte of [p], four zero bytes, the 16 bytes of [a] and four zero bytes;
    and for every endpoint the two bytes of the port field, read as a
    big-endian number, are [port()], on a host of either byte order. *)
Theorem packed_layout (p : Z) (a : Address.address) (e : Endpoint.endpoint) :
  Endpoint.is_u16 p -> Address.wf a ->
  Endpoint.data (Endpoint.endpoint_of_port_address p a)
  = store 2 AF_INET6 ++ [uchar_of_Z (p / 256); uchar_of_Z p]
    ++ repeat x00 4 ++ s6_addr (Address.addr_ a) ++ repeat x00 4
  /\ be_value (port_field (Endpoint.data e)) = Endpoint.port e.
Proof.
  intros Hp Ha. split.
  - unfold Endpoint.data, packed.
    rewrite endpoint_of_port_address_addr by exact Ha.
    unfold Endpoint.endpoint_of_port_address.
    cbn [Endpoint.addr_ set_sin6_scope_id set_sin6_addr set_sin6_flowinfo
         set_sin6_port set_sin6_family sin6_family sin6_port sin6_flowinfo
         sin6_scope_id].
    now rewrite store_host_to_network_short, store_4_zero by exact Hp.
  - unfold Endpoint.data, Endpoint.port.
    rewrite port_field_packed. apply be_value_store_2.
Qed.

End EndpointBytes.

Lemma packed_layout_witness :
  Endpoint.is_u16 8080 /\ Address.wf addr_2001_db8_1
  /\ be_value
       (port_field
          (Endpoint.data (H := example_platform)
             (Endpoint.endpoint_of_port_address (H := example_platform)
                8080 addr_2001_db8_1))) = 8080.
Proof.
  assert (Hp : Endpoint.is_u16 8080) by (unfold Endpoint.is_u16; lia).
  split; [exact Hp|]. split; [reflexivity|].
  exact (proj2 (@packed_layout example_platform 8080 addr_2001_db8_1
                  (Endpoint.endpoint_of_port_address (H := example_platform)
                     8080 addr_2001_db8_1) Hp eq_refl)).
Defined.

(** ** [endpoint]: the order *)

Section EndpointTotalOrder.
Context `{Platform}.

Lemma endpoint_lt_key (e1 e2 : Endpoint.endpoint) :
  Address.wf_in6 (sin6_addr (Endpoint.addr_ e1)) ->
  Address.wf_in6 (sin6_addr (Endpoint.addr_ e2)) ->
  (Endpoint.lt e1 e2 = true <-> endpoint_key e1 < endpoint_key e2).
Proof.
  intros W1 W2. unfold Endpoint.lt, endpoint_key.
  rewrite !endpoint_address by assumption.
  unfold Address.lt, Address.ne, sizeof_in6_addr. cbn [Address.addr_].
  pose proof (endpoint_port_range e1). pose proof (endpoint_port_range e2).
  destruct (memcmp_spec 16 _ _ W1 W2) as [[E0 E]|[(Hlt & _ & Hv)|(Hgt & _ & Hv)]].
  - rewrite E0, E. cbn [Z.ltb Z.eqb Z.compare negb]. rewrite Z.ltb_lt. lia.
  - destruct (Z.ltb_spec (memcmp (s6_addr (sin6_addr (Endpoint.addr_ e1)))
                            (s6_addr (sin6_addr (Endpoint.addr_ e2))) 16) 0);
      [|lia].
    split; [lia | reflexivity].
  - destruct (Z.ltb_spec (memcmp (s6_addr (sin6_addr (Endpoint.addr_ e1)))
                            (s6_addr (sin6_addr (Endpoint.addr_ e2))) 16) 0);
      [lia|].
    destruct (Z.eqb_spec (memcmp (s6_addr (sin6_addr (Endpoint.addr_ e1)))
                            (s6_addr (sin6_addr (Endpoint.addr_ e2))) 16) 0);
      [lia|].
    cbn [negb]. split; [discriminate | lia].
Qed.

Lemma endpoint_eq_key (e1 e2 : Endpoint.endpoint) :
  Address.wf_in6 (sin6_addr (Endpoint.addr_ e1)) ->
  Address.wf_in6 (sin6_addr (Endpoint.addr_ e2)) ->
  (Endpoint.eq e1 e2 = true <-> endpoint_key e1 = endpoint_key e2).
Proof.
  intros W1 W2. unfold Endpoint.eq, endpoint_key.
  rewrite !endpoint_address by assumption.
  unfold Address.eq, sizeof_in6_addr. cbn [Address.addr_].
  pose proof (endpoint_port_range e1). pose proof (endpoint_port_range e2).
  rewrite andb_true_iff, !Z.eqb_eq.
  destruct (memcmp_spec 16 _ _ W1 W2) as [[E0 E]|[(Hlt & _ & Hv)|(Hgt & _ & Hv)]].
  - rewrite E0, E. lia.
  - lia.
  - lia.
Qed.

(** X11: on endpoints with 16-byte address members, [<] is a strict total
    order: [e1 < e2] exactly when the number made of the address bytes and
    then the port of [e1] is below that of [e2]; exactly one of [e1 < e2],
    [e2 < e1], [e1 == e2] holds; and [<] is irreflexive and transitive. *)
Theorem endpoint_strict_total_order (e1 e2 e3 : Endpoint.endpoint) :
  Address.wf_in6 (sin6_addr (Endpoint.addr_ e1)) ->
  Address.wf_in6 (sin6_addr (Endpoint.addr_ e2)) ->
  Address.wf_in6 (sin6_addr (Endpoint.addr_ e3)) ->
  (Endpoint.lt e1 e2 = true <-> endpoint_key e1 < endpoint_key e2)
  /\ exactly_one (Endpoint.lt e1 e2) (Endpoint.lt e2 e1) (Endpoint.eq e1 e2)
  /\ Endpoint.lt e1 e1 = false
  /\ (Endpoint.lt e1 e2 = true -> Endpoint.lt e2 e3 = true ->
      Endpoint.lt e1 e3 = true).
Proof.
  intros W1 W2 W3.
  pose proof (endpoint_lt_key e1 e2 W1 W2) as L12.
  pose proof (endpoint_lt_key e2 e1 W2 W1) as L21.
  pose proof (endpoint_lt_key e1 e1 W1 W1) as L11.
  pose proof (endpoint_lt_key e2 e3 W2 W3) as L23.
  pose proof (endpoint_lt_key e1 e3 W1 W3) as L13.
  pose proof (endpoint_eq_key e1 e2 W1 W2) as E12.
  split; [exact L12|]. split; [|split].
  - unfold exactly_one.
    destruct (Endpoint.lt e1 e2), (Endpoint.lt e2 e1), (Endpoint.eq e1 e2);
      intuition (try discriminate; try lia).
  - destruct (Endpoint.lt e1 e1); [|reflexivity].
    pose proof (proj1 L11 eq_refl). lia.
  - intros A B. apply L13. apply L12 in A. apply L23 in B. lia.
Qed.

(** X12: on endpoints with 16-byte address members, [==] is reflexive,
    symmetric and transitive, and endpoints that are [==] stand in the same
    [<] relations to every other endpoint. *)
Theorem endpoint_eq_equivalence (e1 e2 e3 : Endpoint.endpoint) :
  Address.wf_in6 (sin6_addr (Endpoint.addr_ e1)) ->
  Address.wf_in6 (sin6_addr (Endpoint.addr_ e2)) ->
  Address.wf_in6 (sin6_addr (Endpoint.addr_ e3)) ->
  Endpoint.eq e1 e1 = true
  /\ Endpoint.eq e1 e2 = Endpoint.eq e2 e1
  /\ (Endpoint.eq e1 e2 = true -> Endpoint.eq e2 e3 = true ->
      Endpoint.eq e1 e3 = true)
  /\ (Endpoint.eq e1 e2 = true ->
      Endpoint.lt e1 e3 = Endpoint.lt e2 e3
      /\ Endpoint.lt e3 e1 = Endpoint.lt e3 e2).
Proof.
  intros W1 W2 W3.
  pose proof (endpoint_eq_key e1 e1 W1 W1) as E11.
  pose proof (endpoint_eq_key e1 e2 W1 W2) as E12.
  pose proof (endpoint_eq_key e2 e1 W2 W1) as E21.
  pose proof (endpoint_eq_key e2 e3 W2 W3) as E23.
  pose proof (endpoint_eq_key e1 e3 W1 W3) as E13.
  pose proof (endpoint_lt_key e1 e3 W1 W3) as L13.
  pose proof (endpoint_lt_key e2 e3 W2 W3) as L23.
  pose proof (endpoint_lt_key e3 e1 W3 W1) as L31.
  pose proof (endpoint_lt_key e3 e2 W3 W2) as L32.
  split; [now apply E11|]. split; [|split].
  - destruct (Endpoint.eq e1 e2), (Endpoint.eq e2 e1); try reflexivity.
    + pose proof (proj1 E12 eq_refl) as K. symmetry in K.
      apply E21 in K. discriminate.
    + pose proof (proj1 E21 eq_refl) as K. symmetry in K.
      apply E12 in K. discriminate.
  - intros A B. apply E13. apply E12 in A. apply E23 in B. congruence.
  - intros A. apply E12 in A. rewrite A in *. split.
    + destruct (Endpoint.lt e1 e3), (Endpoint.lt e2 e3); try reflexivity.
      * pose proof (proj1 L13 eq_refl) as K. apply L23 in K. discriminate.
      * pose proof (proj1 L23 eq_refl) as K. apply L13 in K. discriminate.
    + destruct (Endpoint.lt e3 e1), (Endpoint.lt e3 e2); try reflexivity.
      * pose proof (proj1 L31 eq_refl) as K. apply L32 in K. discriminate.
      * pose proof (proj1 L32 eq_refl) as K. apply L31 in K. discriminate.
Qed.

End EndpointTotalOrder.

Lemma endpoint_strict_total_order_witness :
  let e1 := Endpoint.endpoint_of_port (H := example_platform) 80 in
  let e2 := Endpoint.endpoint_of_port (H := example_platform) 8080 in
  let e3 := Endpoint.endpoint_of_port_address (H := example_platform)
              22 addr_fe80_1 in
  Address.wf_in6 (sin6_addr (Endpoint.addr_ e1))
  /\ Address.wf_in6 (sin6_addr (Endpoint.addr_ e2))
  /\ Address.wf_in6 (sin6_addr (Endpoint.addr_ e3))
  /\ Endpoint.lt (H := example_platform) e1 e3 = true.
Proof.
  intros e1 e2 e3.
  split; [reflexivity|]. split; [reflexivity|]. split; [reflexivity|].
  pose proof (@endpoint_strict_total_order example_platform e1 e2 e3
                eq_refl eq_refl eq_refl) as (_ & _ & _ & T).
  apply T; reflexivity.
Defined.

Lemma endpoint_eq_equivalence_witness :
  let e1 := Endpoint.endpoint_of_port (H := example_platform) 80 in
  let e2 := Endpoint.set_port (H := example_platform)
              (Endpoint.endpoint_default (H := example_platform)) 80 in
  let e3 := Endpoint.endpoint_of_port_address (H := example_platform)
              22 addr_fe80_1 in
  Address.wf_in6 (sin6_addr (Endpoint.addr_ e1))
  /\ Address.wf_in6 (sin6_addr (Endpoint.addr_ e2))
  /\ Address.wf_in6 (sin6_addr (Endpoint.addr_ e3))
  /\ Endpoint.lt (H := example_platform) e1 e3
     = Endpoint.lt (H := example_platform) e2 e3.
Proof.
  intros e1 e2 e3.
  split; [reflexivity|]. split; [reflexivity|]. split; [reflexivity|].
  pose proof (@endpoint_eq_equivalence example_platform e1 e2 e3
                eq_refl eq_refl eq_refl) as (_ & _ & _ & C).
  apply (C eq_refl).
Defined.

(** ** [endpoint]: equal endpoints, equal structures *)

Section EndpointStructure.
Context `{Platform}.

Lemma addr_field_packed (s : inet_addr_v6_type) :
  Address.wf_in6 (sin6_addr s) ->
  firstn 16 (skipn 8 (packed s)) = s6_addr (sin6_addr s).
Proof.
  unfold Address.wf_in6. intros Hs.
  replace (packed s)
    with ((store 2 (sin6_family s) ++ store 2 (sin6_port s)
           ++ store 4 (sin6_flowinfo s))
          ++ s6_addr (sin6_addr s) ++ store 4 (sin6_scope_id s))
    by (unfold packed; now rewrite <- !app_assoc).
  rewrite skipn_app, skipn_all2
    by (rewrite !length_app, !store_length; cbn; lia).
  rewrite !length_app, !store_length. cbn [Nat.add Nat.sub skipn app].
  rewrite firstn_app, Hs, firstn_all2 by lia.
  cbn [Nat.sub firstn]. apply app_nil_r.
Qed.

(** X13: for endpoints as the class builds them (16-byte address member,
    16-bit port member, family [AF_INET6], flow label and scope id 0), [==]
    holds exactly when the two structures are the same, which is exactly
    when their packed bytes are the same. *)
Theorem endpoint_eq_structure (e1 e2 : Endpoint.endpoint) :
  Endpoint.wf e1 -> Endpoint.wf e2 ->
  Endpoint.fixed_fields e1 -> Endpoint.fixed_fields e2 ->
  (Endpoint.eq e1 e2 = true <-> e1 = e2)
  /\ (Endpoint.data e1 = Endpoint.data e2 <-> e1 = e2).
Proof.
  intros [Wa1 Wp1] [Wa2 Wp2] (F1 & L1 & S1) (F2 & L2 & S2).
  assert (K : sin6_addr (Endpoint.addr_ e1) = sin6_addr (Endpoint.addr_ e2) ->
              Endpoint.port e1 = Endpoint.port e2 -> e1 = e2).
  { intros Ea Ep. unfold Endpoint.port in Ep.
    apply network_to_host_short_inj in Ep; [|exact Wp1|exact Wp2].
    destruct e1 as [[f1 p1 l1 a1 s1]], e2 as [[f2 p2 l2 a2 s2]].
    cbn in *. congruence. }
  split.
  - unfold Endpoint.eq. rewrite andb_true_iff, Z.eqb_eq.
    rewrite address_eq_iff by (apply endpoint_address_wf; assumption).
    rewrite !endpoint_address by assumption. split.
    + intros [[= Ea] Ep]. now apply K.
    + now intros ->.
  - split; [|now intros ->]. unfold Endpoint.data. intros D. apply K.
    + pose proof (addr_field_packed _ Wa1) as A1.
      pose proof (addr_field_packed _ Wa2) as A2.
      rewrite D, A2 in A1.
      destruct (sin6_addr (Endpoint.addr_ e1)), (sin6_addr (Endpoint.addr_ e2)).
      cbn in A1. now subst.
    + unfold Endpoint.port.
      rewrite <- !be_value_store_2, <- !port_field_packed. now rewrite D.
Qed.

End EndpointStructure.

Lemma endpoint_eq_structure_witness :
  let e1 := Endpoint.endpoint_of_port (H := example_platform) 80 in
  let e2 := Endpoint.endpoint_of_port_address (H := example_platform)
              80 Address.loopback in
  Endpoint.wf e1 /\ Endpoint.wf e2
  /\ Endpoint.fixed_fields (H := example_platform) e1
  /\ Endpoint.fixed_fields (H := example_platform) e2
  /\ e1 = e2.
Proof.
  intros e1 e2.
  assert (W1 : Endpoint.wf e1).
  { split; [reflexivity | unfold Endpoint.is_u16; cbn; lia]. }
  assert (W2 : Endpoint.wf e2).
  { split; [reflexivity | unfold Endpoint.is_u16; cbn; lia]. }
  assert (F1 : Endpoint.fixed_fields (H := example_platform) e1)
    by (repeat split).
  assert (F2 : Endpoint.fixed_fields (H := example_platform) e2)
    by (repeat split).
  split; [exact W1|]. split; [exact W2|]. split; [exact F1|].
  split; [exact F2|].
  apply (proj1 (@endpoint_eq_structure example_platform e1 e2 W1 W2 F1 F2)).
  reflexivity.
Defined.

(** ** The text form on concrete texts *)

Example conforming_texts :
  inet_pton6 "::" = Some (s6_addr IN6ADDR_ANY_INIT)
  /\ inet_pton6 "::1" = Some (s6_addr IN6ADDR_LOOPBACK_INIT)
  /\ inet_pton6 "2001:db8::1" = Some (s6_addr (Address.addr_ addr_2001_db8_1))
  /\ inet_pton6 "FE80::1" = Some (s6_addr (Address.addr_ addr_fe80_1))
  /\ inet_pton6 "1:2:3:4:5:6:7:8"
     = Some [x00; x01; x00; x02; x00; x03; x00; x04;
             x00; x05; x00; x06; x00; x07; x00; x08]
  /\ inet_pton6 "1:2:3:4:5:6:7::"
     = Some [x00; x01; x00; x02; x00; x03; x00; x04;
             x00; x05; x00; x06; x00; x07; x00; x00]
  /\ inet_pton6 "::ffff:192.0.2.1"
     = Some [x00; x00; x00; x00; x00; x00; x00; x00;
             x00; x00; xff; xff; xc0; x00; x02; x01].
Proof. repeat split; reflexivity. Qed.

Example texts_that_do_not_conform :
  map inet_pton6
    [""; ":"; ":::"; "not-an-address"; "1:2:3:4:5:6:7"; "1:2:3:4:5:6:7:8:9";
     "1:2:3:4:5:6:7:8::"; "1::2::3"; "12345::"; "g::"; ":1::"; "1:";
     "::1%eth0"; " ::1"; "1.2.3.4"; "1.2.3.4::"; "::1.2.3"; "::1.2.3.4.5";
     "::256.1.1.1"; "::01.2.3.4"; "::1.2.3.4:5"]%string
  = repeat None 21.
Proof. reflexivity. Qed.

Example classes_of_parsed_texts :
  match Address.address_of_string (H := standard_platform) "ff02::1" 0,
        Address.address_of_string (H := standard_platform) "fe80::1" 0,
        Address.address_of_string (H := standard_platform)
          "::ffff:192.0.2.1" 0
  with
  | (Ok a, _), (Ok b, _), (Ok c, _) =>
      Address.is_multicast a = true /\ Address.is_link_local b = true
      /\ Address.is_ipv4_mapped c = true
  | _, _, _ => False
  end.
Proof. cbn. repeat split. Qed.
